(** * dmabuf-sharing: V4L2 capture buffers shown on a DRM plane

    A shallow embedding of [dmabuf-sharing.c].  The program talks to two
    kernel subsystems; every call into them is kept as an [event] of a
    trace, and what the kernel answers is read from a [world] of replies.
    The program itself is a pure function from the parsed command line and
    the world to a trace and an [outcome]. *)

From Stdlib Require Import ZArith List String Ascii Bool Lia Sorted.
Import ListNotations.
Open Scope Z_scope.

(** ** Machine integers

    [unsigned int] / [uint32_t] values are kept in [0, 2^32), [int] values
    in [-2^31, 2^31); conversions between the two are written out. *)

Definition u32 (x : Z) : Z := x mod 2 ^ 32.

Definition s32 (x : Z) : Z :=
  let y := x mod 2 ^ 32 in if y <? 2 ^ 31 then y else y - 2 ^ 32.

(** ** A small [sscanf]

    Only what the formats of [parse_args] use: [%u] / [%d] conversions
    (white space, an optional sign, at least one decimal digit) and literal
    characters.  The result is the list of converted values, as long as the
    number of assignments [sscanf] reports (where [sscanf] reports [EOF]
    the list is empty; the program only compares the count with the number
    of conversions of the format).  A conversion gives the value that the C
    library's [strtoul] ([%u]) or [strtol] ([%d]) gives for the digits,
    [long] being 64 bits wide: a number too large for it is replaced by
    the largest (or, negative, the smallest) [long]; the cut to the 32
    bits of the destination is made where the value is stored. *)

Definition is_space (c : ascii) : bool :=
  let n := Z.of_nat (nat_of_ascii c) in
  (n =? 32) || ((9 <=? n) && (n <=? 13)).

Definition digit_of (c : ascii) : option Z :=
  let n := Z.of_nat (nat_of_ascii c) in
  if (48 <=? n) && (n <=? 57) then Some (n - 48) else None.

Fixpoint skip_space (s : string) : string :=
  match s with
  | String c r => if is_space c then skip_space r else s
  | EmptyString => s
  end.

Fixpoint scan_digits (acc : Z) (s : string) : Z * string :=
  match s with
  | String c r =>
      match digit_of c with
      | Some d => scan_digits (10 * acc + d) r
      | None => (acc, s)
      end
  | EmptyString => (acc, s)
  end.

Definition scan_unsigned (s : string) : option (Z * string) :=
  match s with
  | String c r =>
      match digit_of c with
      | Some d => Some (scan_digits d r)
      | None => None
      end
  | EmptyString => None
  end.

(** A number as written: whether its sign is a minus, its magnitude, and
    the input after it. *)
Definition scan_number (s : string) : option (bool * Z * string) :=
  match skip_space s with
  | String c r =>
      if Ascii.eqb c "-" then
        match scan_unsigned r with
        | Some (v, r') => Some (true, v, r')
        | None => None
        end
      else if Ascii.eqb c "+" then
        match scan_unsigned r with
        | Some (v, r') => Some (false, v, r')
        | None => None
        end
      else
        match scan_unsigned (String c r) with
        | Some (v, r') => Some (false, v, r')
        | None => None
        end
  | EmptyString => None
  end.

(** [strtoul]: a magnitude above [ULONG_MAX] gives [ULONG_MAX], whatever
    the sign; otherwise a minus negates modulo 2^64. *)
Definition strtoul (neg : bool) (v : Z) : Z :=
  if 2 ^ 64 - 1 <? v then 2 ^ 64 - 1
  else if neg then (- v) mod 2 ^ 64 else v.

(** [strtol]: out of range gives [LONG_MAX] or, negative, [LONG_MIN]. *)
Definition strtol (neg : bool) (v : Z) : Z :=
  if neg then (if 2 ^ 63 <? v then - 2 ^ 63 else - v)
  else (if 2 ^ 63 - 1 <? v then 2 ^ 63 - 1 else v).

Inductive directive :=
| Conv_u
| Conv_d
| Lit (c : ascii).

Fixpoint sscanf (fmt : list directive) (s : string) : list Z :=
  match fmt with
  | [] => []
  | Conv_u :: fmt' =>
      match scan_number s with
      | Some (neg, v, r) => strtoul neg v :: sscanf fmt' r
      | None => []
      end
  | Conv_d :: fmt' =>
      match scan_number s with
      | Some (neg, v, r) => strtol neg v :: sscanf fmt' r
      | None => []
      end
  | Lit c :: fmt' =>
      match s with
      | String c' r => if Ascii.eqb c c' then sscanf fmt' r else []
      | EmptyString => []
      end
  end.

(** ** The structs of the program *)

(** [struct v4l2_rect] of <linux/videodev2.h>: [__s32 left, top] and
    [__u32 width, height]. *)
Record v4l2_rect := {
  rect_left : Z;
  rect_top : Z;
  rect_width : Z;
  rect_height : Z
}.

Record setup := {
  module : string;
  conId : Z;
  crtcId : Z;
  crtcIdx : Z;
  planeId : Z;
  video : string;
  w : Z;
  h : Z;
  use_wh : bool;
  in_fourcc : Z;
  out_fourcc : Z;
  buffer_count : Z;
  use_crop : bool;
  use_compose : bool;
  crop : v4l2_rect;
  compose : v4l2_rect
}.

Record buffer := {
  bo_handle : Z;
  fb_handle : Z;
  dbuf_fd : Z
}.

Record stream := {
  v4lfd : Z;
  current_buffer : Z;
  stream_buffer : list buffer
}.

(** Field assignments: [set_f v s] is [s] after [s->f = v]. *)

Definition set_module (v : string) (s : setup) : setup :=
  {| module := v; conId := conId s; crtcId := crtcId s; crtcIdx := crtcIdx s;
     planeId := planeId s; video := video s; w := w s; h := h s;
     use_wh := use_wh s; in_fourcc := in_fourcc s;
     out_fourcc := out_fourcc s; buffer_count := buffer_count s;
     use_crop := use_crop s; use_compose := use_compose s; crop := crop s;
     compose := compose s |}.

Definition set_conId (v : Z) (s : setup) : setup :=
  {| module := module s; conId := v; crtcId := crtcId s;
     crtcIdx := crtcIdx s; planeId := planeId s; video := video s; w := w s;
     h := h s; use_wh := use_wh s; in_fourcc := in_fourcc s;
     out_fourcc := out_fourcc s; buffer_count := buffer_count s;
     use_crop := use_crop s; use_compose := use_compose s; crop := crop s;
     compose := compose s |}.

Definition set_crtcId (v : Z) (s : setup) : setup :=
  {| module := module s; conId := conId s; crtcId := v; crtcIdx := crtcIdx s;
     planeId := planeId s; video := video s; w := w s; h := h s;
     use_wh := use_wh s; in_fourcc := in_fourcc s;
     out_fourcc := out_fourcc s; buffer_count := buffer_count s;
     use_crop := use_crop s; use_compose := use_compose s; crop := crop s;
     compose := compose s |}.

Definition set_crtcIdx (v : Z) (s : setup) : setup :=
  {| module := module s; conId := conId s; crtcId := crtcId s; crtcIdx := v;
     planeId := planeId s; video := video s; w := w s; h := h s;
     use_wh := use_wh s; in_fourcc := in_fourcc s;
     out_fourcc := out_fourcc s; buffer_count := buffer_count s;
     use_crop := use_crop s; use_compose := use_compose s; crop := crop s;
     compose := compose s |}.

Definition set_planeId (v : Z) (s : setup) : setup :=
  {| module := module s; conId := conId s; crtcId := crtcId s;
     crtcIdx := crtcIdx s; planeId := v; video := video s; w := w s;
     h := h s; use_wh := use_wh s; in_fourcc := in_fourcc s;
     out_fourcc := out_fourcc s; buffer_count := buffer_count s;
     use_crop := use_crop s; use_compose := use_compose s; crop := crop s;
     compose := compose s |}.

Definition set_video (v : string) (s : setup) : setup :=
  {| module := module s; conId := conId s; crtcId := crtcId s;
     crtcIdx := crtcIdx s; planeId := planeId s; video := v; w := w s;
     h := h s; use_wh := use_wh s; in_fourcc := in_fourcc s;
     out_fourcc := out_fourcc s; buffer_count := buffer_count s;
     use_crop := use_crop s; use_compose := use_compose s; crop := crop s;
     compose := compose s |}.

Definition set_w (v : Z) (s : setup) : setup :=
  {| module := module s; conId := conId s; crtcId := crtcId s;
     crtcIdx := crtcIdx s; planeId := planeId s; video := video s; w := v;
     h := h s; use_wh := use_wh s; in_fourcc := in_fourcc s;
     out_fourcc := out_fourcc s; buffer_count := buffer_count s;
     use_crop := use_crop s; use_compose := use_compose s; crop := crop s;
     compose := compose s |}.

Definition set_h (v : Z) (s : setup) : setup :=
  {| module := module s; conId := conId s; crtcId := crtcId s;
     crtcIdx := crtcIdx s; planeId := planeId s; video := video s; w := w s;
     h := v; use_wh := use_wh s; in_fourcc := in_fourcc s;
     out_fourcc := out_fourcc s; buffer_count := buffer_count s;
     use_crop := use_crop s; use_compose := use_compose s; crop := crop s;
     compose := compose s |}.

Definition set_use_wh (v : bool) (s : setup) : setup :=
  {| module := module s; conId := conId s; crtcId := crtcId s;
     crtcIdx := crtcIdx s; planeId := planeId s; video := video s; w := w s;
     h := h s; use_wh := v; in_fourcc := in_fourcc s;
     out_fourcc := out_fourcc s; buffer_count := buffer_count s;
     use_crop := use_crop s; use_compose := use_compose s; crop := crop s;
     compose := compose s |}.

Definition set_in_fourcc (v : Z) (s : setup) : setup :=
  {| module := module s; conId := conId s; crtcId := crtcId s;
     crtcIdx := crtcIdx s; planeId := planeId s; video := video s; w := w s;
     h := h s; use_wh := use_wh s; in_fourcc := v;
     out_fourcc := out_fourcc s; buffer_count := buffer_count s;
     use_crop := use_crop s; use_compose := use_compose s; crop := crop s;
     compose := compose s |}.

Definition set_out_fourcc (v : Z) (s : setup) : setup :=
  {| module := module s; conId := conId s; crtcId := crtcId s;
     crtcIdx := crtcIdx s; planeId := planeId s; video := video s; w := w s;
     h := h s; use_wh := use_wh s; in_fourcc := in_fourcc s; out_fourcc := v;
     buffer_count := buffer_count s; use_crop := use_crop s;
     use_compose := use_compose s; crop := crop s; compose := compose s |}.

Definition set_buffer_count (v : Z) (s : setup) : setup :=
  {| module := module s; conId := conId s; crtcId := crtcId s;
     crtcIdx := crtcIdx s; planeId := planeId s; video := video s; w := w s;
     h := h s; use_wh := use_wh s; in_fourcc := in_fourcc s;
     out_fourcc := out_fourcc s; buffer_count := v; use_crop := use_crop s;
     use_compose := use_compose s; crop := crop s; compose := compose s |}.

Definition set_use_crop (v : bool) (s : setup) : setup :=
  {| module := module s; conId := conId s; crtcId := crtcId s;
     crtcIdx := crtcIdx s; planeId := planeId s; video := video s; w := w s;
     h := h s; use_wh := use_wh s; in_fourcc := in_fourcc s;
     out_fourcc := out_fourcc s; buffer_count := buffer_count s;
     use_crop := v; use_compose := use_compose s; crop := crop s;
     compose := compose s |}.

Definition set_use_compose (v : bool) (s : setup) : setup :=
  {| module := module s; conId := conId s; crtcId := crtcId s;
     crtcIdx := crtcIdx s; planeId := planeId s; video := video s; w := w s;
     h := h s; use_wh := use_wh s; in_fourcc := in_fourcc s;
     out_fourcc := out_fourcc s; buffer_count := buffer_count s;
     use_crop := use_crop s; use_compose := v; crop := crop s;
     compose := compose s |}.

Definition set_crop (v : v4l2_rect) (s : setup) : setup :=
  {| module := module s; conId := conId s; crtcId := crtcId s;
     crtcIdx := crtcIdx s; planeId := planeId s; video := video s; w := w s;
     h := h s; use_wh := use_wh s; in_fourcc := in_fourcc s;
     out_fourcc := out_fourcc s; buffer_count := buffer_count s;
     use_crop := use_crop s; use_compose := use_compose s; crop := v;
     compose := compose s |}.

Definition set_compose (v : v4l2_rect) (s : setup) : setup :=
  {| module := module s; conId := conId s; crtcId := crtcId s;
     crtcIdx := crtcIdx s; planeId := planeId s; video := video s; w := w s;
     h := h s; use_wh := use_wh s; in_fourcc := in_fourcc s;
     out_fourcc := out_fourcc s; buffer_count := buffer_count s;
     use_crop := use_crop s; use_compose := use_compose s; crop := crop s;
     compose := v |}.

(** ** [parse_args]

    [getopt] has already split the command line: the options arrive as the
    list of (option character, [optarg]) pairs in the order [getopt] returns
    them, ['?'] standing for an option it did not recognise.  The text that
    [usage] prints is not modelled. *)

Definition fmt_u : list directive := [Conv_u].
Definition fmt_u_colon_u : list directive := [Conv_u; Lit ":"; Conv_u].
Definition fmt_u_comma_u : list directive := [Conv_u; Lit ","; Conv_u].
Definition fmt_rect : list directive :=
  [Conv_d; Lit ","; Conv_d; Lit "@"; Conv_d; Lit ","; Conv_d].

(** The [i]-th conversion stored into a field through [conv], or the field
    left as it was when [sscanf] stopped before it. *)
Definition stored (conv : Z -> Z) (vals : list Z) (i : nat) (old : Z) : Z :=
  match nth_error vals i with
  | Some v => conv v
  | None => old
  end.

(** [parse_rect]: the four numbers go to width, height, top, left, in that
    order; the result is true when fewer than four were read. *)
Definition parse_rect (s : string) (r : v4l2_rect) : bool * v4l2_rect :=
  let vals := sscanf fmt_rect s in
  (negb (Nat.eqb (List.length vals) 4),
   {| rect_width := stored u32 vals 0 (rect_width r);
      rect_height := stored u32 vals 1 (rect_height r);
      rect_top := stored s32 vals 2 (rect_top r);
      rect_left := stored s32 vals 3 (rect_left r) |}).

(** [(unsigned)optarg[i]], plain [char] taken as signed; for 7-bit
    characters the signedness makes no difference. *)
Definition unsigned_of_char (c : ascii) : Z :=
  let n := Z.of_nat (nat_of_ascii c) in
  u32 (if n <? 128 then n else n - 256).

Definition fourcc_of (a : string) : Z :=
  match a with
  | String c0 (String c1 (String c2 (String c3 _))) =>
      Z.lor (Z.lor (Z.lor (u32 (Z.shiftl (unsigned_of_char c0) 0))
                          (u32 (Z.shiftl (unsigned_of_char c1) 8)))
                   (u32 (Z.shiftl (unsigned_of_char c2) 16)))
            (u32 (Z.shiftl (unsigned_of_char c3) 24))
  | _ => 0
  end.

(** [strncpy (dst, optarg, 31)] into a zeroed 32-byte array. *)
Definition strncpy31 (optarg : string) : string := substring 0 31 optarg.

Definition zero_rect : v4l2_rect :=
  {| rect_left := 0; rect_top := 0; rect_width := 0; rect_height := 0 |}.

(** [memset (s, 0, sizeof *s)] *)
Definition zero_setup : setup :=
  {| module := EmptyString; conId := 0; crtcId := 0; crtcIdx := 0;
     planeId := 0; video := EmptyString; w := 0; h := 0; use_wh := false;
     in_fourcc := 0; out_fourcc := 0; buffer_count := 0; use_crop := false;
     use_compose := false; crop := zero_rect; compose := zero_rect |}.

(** One turn of the [switch]: the setup after it, and whether the function
    returns -1 there. *)
Definition parse_opt (c : ascii) (optarg : string) (s : setup)
  : bool * setup :=
  if Ascii.eqb c "M" then (false, set_module (strncpy31 optarg) s)
  else if Ascii.eqb c "o" then
    let vals := sscanf fmt_u_colon_u optarg in
    let s1 := set_conId (stored s32 vals 0 (conId s)) s in
    let s2 := set_crtcId (stored u32 vals 1 (crtcId s)) s1 in
    (negb (Nat.eqb (List.length vals) 2), s2)
  else if Ascii.eqb c "i" then (false, set_video (strncpy31 optarg) s)
  else if Ascii.eqb c "S" then
    let vals := sscanf fmt_u_comma_u optarg in
    let s1 := set_w (stored u32 vals 0 (w s)) s in
    let s2 := set_h (stored u32 vals 1 (h s)) s1 in
    if Nat.eqb (List.length vals) 2
    then (false, set_use_wh true s2)
    else (true, s2)
  else if Ascii.eqb c "f" then
    if Nat.eqb (String.length optarg) 4
    then (false, set_in_fourcc (fourcc_of optarg) s)
    else (true, s)
  else if Ascii.eqb c "F" then
    if Nat.eqb (String.length optarg) 4
    then (false, set_out_fourcc (fourcc_of optarg) s)
    else (true, s)
  else if Ascii.eqb c "s" then
    let '(bad, r) := parse_rect optarg (crop s) in
    if bad then (true, set_crop r s)
    else (false, set_use_crop true (set_crop r s))
  else if Ascii.eqb c "t" then
    let '(bad, r) := parse_rect optarg (compose s) in
    if bad then (true, set_compose r s)
    else (false, set_use_compose true (set_compose r s))
  else if Ascii.eqb c "b" then
    let vals := sscanf fmt_u optarg in
    (negb (Nat.eqb (List.length vals) 1),
     set_buffer_count (stored u32 vals 0 (buffer_count s)) s)
  else if Ascii.eqb c "?" || Ascii.eqb c "h" then (true, s)
  else (false, s).

Fixpoint parse_opts (opts : list (ascii * string)) (s : setup)
  : Z * setup :=
  match opts with
  | [] => (0, s)
  | (c, optarg) :: rest =>
      let '(bad, s') := parse_opt c optarg s in
      if bad then (-1, s') else parse_opts rest s'
  end.

Definition parse_args (opts : list (ascii * string)) : Z * setup :=
  parse_opts opts zero_setup.

(** ** The two subsystems: replies and events *)

(** The fields of [struct v4l2_pix_format] the program reads or writes. *)
Record pix_format := {
  pix_width : Z;
  pix_height : Z;
  pix_pixelformat : Z;
  pix_bytesperline : Z;
  pix_sizeimage : Z
}.

(** The fields of the libdrm objects the program reads. *)
Record drmModeRes := {
  crtcs : list Z;
  connectors : list Z
}.

Record drmModeConnector := {
  connector_id : Z;
  encoder_id : Z;
  count_modes : Z
}.

Record drmModeEncoder := {
  enc_crtc_id : Z
}.

Record drmModeCrtc := {
  crtc_id : Z;
  crtc_x : Z;
  crtc_y : Z;
  crtc_width : Z;
  crtc_height : Z
}.

Record drmModePlane := {
  plane_id : Z;
  possible_crtcs : Z;
  formats : list Z
}.

(** What the kernel answers to the calls of one [buffer_create]: [None] is
    a call that fails, [Some v] one that succeeds and hands back [v]. *)
Record create_reply := {
  cr_dumb : option Z;
  cr_prime : option Z;
  cr_addfb : option Z;
  cr_destroy : bool
}.

(** What happens at one turn of the streaming loop: the value of [poll],
    the [revents] of the two descriptors, and the answers to the calls of
    the loop body. *)
Record wake := {
  poll_ret : Z;
  revents_v4l : bool;
  revents_drm : bool;
  dqbuf_reply : option Z;
  setplane_reply : bool;
  qbuf_reply : bool
}.

(** Everything outside the program.  An ioctl that succeeds returns 0 and
    one that fails returns -1, so its reply is a [bool] or an [option];
    pointers returned by libdrm are [option]s, [None] for NULL.  After the
    last [wake] of [w_wakes], [poll] times out. *)
Record world := {
  w_drmOpen : Z;
  w_open : Z;
  w_querycap : option Z;
  w_g_fmt_start : option pix_format;
  w_s_fmt : bool;
  w_g_fmt_final : option pix_format;
  w_reqbufs : option Z;
  w_create : nat -> create_reply;
  w_resources : option drmModeRes;
  w_connector : Z -> option drmModeConnector;
  w_encoder : Z -> option drmModeEncoder;
  w_crtc : Z -> option drmModeCrtc;
  w_plane_resources : option (list Z);
  w_plane : Z -> option drmModePlane;
  w_qbuf_init : nat -> bool;
  w_streamon : bool;
  w_wakes : list wake
}.

(** A call into a subsystem, with what came back. *)
Inductive event :=
| EV_drmOpen (name : string) (fd : Z)
| EV_open (path : string) (fd : Z)
| EV_QUERYCAP (reply : option Z)
| EV_G_FMT (reply : option pix_format)
| EV_S_FMT (req : pix_format) (ok : bool)
| EV_REQBUFS (count : Z) (reply : option Z)
| EV_CREATE_DUMB (width height bpp size : Z) (reply : option Z)
| EV_PRIME_HANDLE_TO_FD (handle : Z) (reply : option Z)
| EV_AddFB2 (width height fourcc handle pitch : Z) (reply : option Z)
| EV_close (fd : Z)
| EV_DESTROY_DUMB (handle : Z) (ok : bool)
| EV_GetResources (ok : bool)
| EV_GetConnector (id : Z) (ok : bool)
| EV_GetEncoder (id : Z) (ok : bool)
| EV_GetCrtc (id : Z) (ok : bool)
| EV_GetPlaneResources (ok : bool)
| EV_GetPlane (id : Z) (ok : bool)
| EV_QBUF (index fd : Z) (ok : bool)
| EV_STREAMON (ok : bool)
| EV_poll (ret : Z)
| EV_DQBUF (reply : option Z)
| EV_SetPlane (plane crtc fb : Z) (dst_x dst_y dst_w dst_h : Z)
    (src_x src_y src_w src_h : Z) (ok : bool).

(** The [BYE_ON] sites of [main]. *)
Inductive bye :=
| BYE_parse_arguments
| BYE_module_missing
| BYE_video_missing
| BYE_drmOpen
| BYE_open_video
| BYE_QUERYCAP
| BYE_no_capture
| BYE_G_FMT_start
| BYE_S_FMT
| BYE_G_FMT_final
| BYE_REQBUFS
| BYE_allocated_only
| BYE_create_buffer (i : nat)
| BYE_find_valid_mode
| BYE_find_compatible_plane
| BYE_QBUF_for_buffer (i : nat)
| BYE_STREAMON
| BYE_DQBUF
| BYE_SetPlane
| BYE_QBUF_index (index : Z).

(** How the run ends: [return] from [main], [exit], [abort] at a
    [BYE_ON], or [Fault]: a NULL pointer is followed or an array is read
    outside its bounds.  What the C program does from there on is not
    defined by the language (the process may be killed, or go on with
    whatever word it read); the run is followed no further. *)
Inductive outcome :=
| Returned (code : Z)
| Exited (code : Z)
| Aborted (site : bye)
| Fault.

(** ** Computations: a trace, then a value or the end of the process *)

Definition M (A : Type) : Type := list event * (A + outcome).

Definition ret {A} (a : A) : M A := ([], inl a).
Definition stop {A} (o : outcome) : M A := ([], inr o).
Definition call (e : event) : M unit := ([e], inl tt).

Definition bind {A B} (m : M A) (k : A -> M B) : M B :=
  match snd m with
  | inl a => let r := k a in (fst m ++ fst r, snd r)
  | inr o => (fst m, inr o)
  end.

Notation "x <- m ;; k" := (bind m (fun x => k))
  (at level 61, m at next level, right associativity).
Notation "m ;;; k" := (bind m (fun _ => k))
  (at level 61, right associativity).

(** [BYE_ON (cond, ...)] *)
Definition BYE_ON (cond : bool) (site : bye) : M unit :=
  if cond then stop (Aborted site) else ret tt.

Definition trace_of {A} (m : M A) : list event := fst m.
Definition result_of {A} (m : M A) : A + outcome := snd m.

(** ** [buffer_create] *)

(** The layout the framebuffer is registered with: [out_fourcc], or
    [in_fourcc] when that is 0. *)
Definition fb_fourcc (s : setup) : Z :=
  if out_fourcc s =? 0 then in_fourcc s else out_fourcc s.

(** The calls of one [buffer_create] and the buffer it fills, [None] when
    it returns -1.  A failed export jumps to [fail_gem], a failed
    framebuffer registration to [fail_prime]. *)
Definition buffer_create (rep : create_reply) (s : setup) (size pitch : Z)
  : list event * option buffer :=
  let create := EV_CREATE_DUMB (w s) (h s) 32 size (cr_dumb rep) in
  match cr_dumb rep with
  | None => ([create], None)
  | Some handle =>
      let prime := EV_PRIME_HANDLE_TO_FD handle (cr_prime rep) in
      let fail_gem := [EV_DESTROY_DUMB handle (cr_destroy rep)] in
      match cr_prime rep with
      | None => ([create; prime] ++ fail_gem, None)
      | Some fd =>
          let addfb :=
            EV_AddFB2 (w s) (h s) (fb_fourcc s) handle pitch (cr_addfb rep) in
          let fail_prime := EV_close fd :: fail_gem in
          match cr_addfb rep with
          | None => ([create; prime; addfb] ++ fail_prime, None)
          | Some fb =>
              ([create; prime; addfb],
               Some {| bo_handle := handle; fb_handle := fb; dbuf_fd := fd |})
          end
      end
  end.

(** The loop of [main] that fills [buffer[i]] for [i] from [i] on, [n]
    buffers being left to create. *)
Fixpoint create_buffers (wd : world) (s : setup) (size pitch : Z)
    (n i : nat) : M (list buffer) :=
  match n with
  | O => ret []
  | S n' =>
      b <- (let '(t, r) := buffer_create (w_create wd i) s size pitch in
            match r with
            | Some b => (t, inl b)
            | None => (t, inr (Aborted (BYE_create_buffer i)))
            end) ;;
      bs <- create_buffers wd s size pitch n' (S i) ;;
      ret (b :: bs)
  end.

(** The events of the calls of [buffer_create] for the buffers [from ..
    from + n - 1]. *)
Definition creation_events (wd : world) (s : setup) (size pitch : Z)
    (from n : nat) : list event :=
  flat_map (fun j => fst (buffer_create (w_create wd j) s size pitch))
    (seq from n).

(** ** [find_crtc] *)

Definition is_some {A} (o : option A) : bool :=
  match o with Some _ => true | None => false end.

(** The loop over [res->connectors] that runs when no connector was given:
    the first connector with an encoder and a CRTC is chosen. *)
Fixpoint choose_connector (wd : world) (ids : list Z) (s : setup)
  : M setup :=
  match ids with
  | [] => ret s
  | id :: rest =>
      call (EV_GetConnector id (is_some (w_connector wd id))) ;;;
      match w_connector wd id with
      | None => stop Fault
      | Some con =>
          crtc <- (if encoder_id con =? 0 then ret None
                   else
                     call (EV_GetEncoder (encoder_id con)
                             (is_some (w_encoder wd (encoder_id con)))) ;;;
                     match w_encoder wd (encoder_id con) with
                     | None => stop Fault
                     | Some enc =>
                         if enc_crtc_id enc =? 0 then ret None
                         else
                           call (EV_GetCrtc (enc_crtc_id enc)
                                   (is_some (w_crtc wd (enc_crtc_id enc)))) ;;;
                           ret (w_crtc wd (enc_crtc_id enc))
                     end) ;;
          let s' :=
            match crtc with
            | Some c =>
                if conId s =? 0
                then set_crtcId (crtc_id c)
                       (set_conId (s32 (connector_id con)) s)
                else s
            | None => s
            end in
          choose_connector wd rest s'
      end
  end.

(** The index of the first entry of [res->crtcs] equal to [id], counted
    from [i]; -1 when there is none. *)
Fixpoint crtc_index (l : list Z) (id : Z) (i : Z) : Z :=
  match l with
  | [] => -1
  | c :: rest => if id =? c then i else crtc_index rest id (i + 1)
  end.

(** [find_crtc]: the value returned and the setup after it.  The connector
    id written through [con] is not used by [main] and is left out. *)
Definition find_crtc (wd : world) (s : setup) : M (Z * setup) :=
  call (EV_GetResources (is_some (w_resources wd))) ;;;
  match w_resources wd with
  | None => ret (-1, s)
  | Some res =>
      if Z.of_nat (List.length (crtcs res)) <=? 0 then ret (-1, s)
      else
        s1 <- (if conId s =? 0 then
                 s' <- choose_connector wd (connectors res) s ;;
                 if conId s' =? 0 then stop (Exited 1) else ret s'
               else ret s) ;;
        let s2 := set_crtcIdx (crtc_index (crtcs res) (crtcId s1) 0) s1 in
        if crtcIdx s2 =? -1 then ret (-1, s2)
        else if Z.of_nat (List.length (connectors res)) <=? 0
        then ret (-1, s2)
        else
          call (EV_GetConnector (u32 (conId s2))
                  (is_some (w_connector wd (u32 (conId s2))))) ;;;
          match w_connector wd (u32 (conId s2)) with
          | None => ret (-1, s2)
          | Some c =>
              if count_modes c =? 0 then ret (-1, s2)
              else
                s3 <- (if use_compose s2 then ret s2
                       else
                         call (EV_GetCrtc (crtcId s2)
                                 (is_some (w_crtc wd (crtcId s2)))) ;;;
                         match w_crtc wd (crtcId s2) with
                         | None => stop Fault
                         | Some crtc =>
                             ret (set_compose
                                    {| rect_left := s32 (crtc_x crtc);
                                       rect_top := s32 (crtc_y crtc);
                                       rect_width := u32 (crtc_width crtc);
                                       rect_height := u32 (crtc_height crtc) |}
                                    s2)
                         end) ;;
                ret (0, s3)
          end
  end.

(** ** [find_plane] *)

(** [1 << s->crtcIdx], converted to unsigned for the [&]. *)
Definition crtc_bit (idx : Z) : Z := u32 (Z.shiftl 1 idx).

(** The value of [j] when the loop over [plane->formats] ends, [j] being
    its value on entry: the position of the first format equal to
    [fourcc], or [count_formats] when the loop runs to its end. *)
Fixpoint format_index (fmts : list Z) (fourcc : Z) (j : nat) : nat :=
  match fmts with
  | [] => j
  | f :: rest => if f =? fourcc then j else format_index rest fourcc (S j)
  end.

(** The loop over [planes->planes]: the id of the plane at which it breaks,
    or [None] when [i] reaches [count_planes].  The test after
    [drmModeGetPlane] looks at [planes], which is not NULL here, so a NULL
    [plane] is followed at [plane->possible_crtcs]. *)
Fixpoint scan_planes (wd : world) (ids : list Z) (s : setup)
  : M (option Z) :=
  match ids with
  | [] => ret None
  | id :: rest =>
      call (EV_GetPlane id (is_some (w_plane wd id))) ;;;
      match w_plane wd id with
      | None => stop Fault
      | Some plane =>
          if Z.land (possible_crtcs plane) (crtc_bit (crtcIdx s)) =? 0
          then scan_planes wd rest s
          else if Nat.eqb (format_index (formats plane) (out_fourcc s) 0)
                          (List.length (formats plane))
          then scan_planes wd rest s
          else ret (Some (plane_id plane))
      end
  end.

Definition find_plane (wd : world) (s : setup) : M (Z * setup) :=
  call (EV_GetPlaneResources (is_some (w_plane_resources wd))) ;;;
  match w_plane_resources wd with
  | None => ret (-1, s)
  | Some ids =>
      r <- scan_planes wd ids s ;;
      match r with
      | Some id => ret (0, set_planeId id s)
      | None => ret (-1, s)
      end
  end.

(** ** The streaming loop of [main] *)

(** [bs[i]] for a signed or unsigned index; [None] outside the array. *)
Definition buffer_at (bs : list buffer) (i : Z) : option buffer :=
  if i <? 0 then None else nth_error bs (Z.to_nat i).

Definition set_current_buffer (v : Z) (st : stream) : stream :=
  {| v4lfd := v4lfd st; current_buffer := v;
     stream_buffer := stream_buffer st |}.

(** The body of the [while]: dequeue, show, give the recorded buffer back,
    record.  There is one [struct v4l2_buffer buf] in the body: the branch
    that queues [stream.current_buffer] clears it and writes that index
    into [buf.index], and the assignment that ends the body reads
    [buf.index] after the branch.  [index'] is [buf.index] at that
    point.  The [revents] of the wake are not read.  Neither array read
    is checked against the size of the pool: with an index outside it the
    run ends in [Fault] and is followed no further. *)
Definition loop_body (s : setup) (st : stream) (k : wake) : M stream :=
  call (EV_DQBUF (dqbuf_reply k)) ;;;
  match dqbuf_reply k with
  | None => stop (Aborted BYE_DQBUF)
  | Some index =>
      match buffer_at (stream_buffer st) index with
      | None => stop Fault
      | Some b =>
          call (EV_SetPlane (planeId s) (crtcId s) (fb_handle b)
                  (rect_left (compose s)) (rect_top (compose s))
                  (rect_width (compose s)) (rect_height (compose s))
                  0 0 (u32 (Z.shiftl (w s) 16)) (u32 (Z.shiftl (h s) 16))
                  (setplane_reply k)) ;;;
          BYE_ON (negb (setplane_reply k)) BYE_SetPlane ;;;
          index' <-
            (if current_buffer st =? -1 then ret index
             else
               match buffer_at (stream_buffer st) (current_buffer st) with
               | None => stop Fault
               | Some cb =>
                   call (EV_QBUF (u32 (current_buffer st)) (dbuf_fd cb)
                           (qbuf_reply k)) ;;;
                   BYE_ON (negb (qbuf_reply k))
                     (BYE_QBUF_index (current_buffer st)) ;;;
                   ret (u32 (current_buffer st))
               end) ;;
          ret (set_current_buffer (s32 index') st)
      end
  end.

(** [while ((ret = poll (fds, 2, 5000)) > 0) { ... }] *)
Fixpoint handoff (s : setup) (st : stream) (wakes : list wake) : M stream :=
  match wakes with
  | [] => call (EV_poll 0) ;;; ret st
  | k :: rest =>
      call (EV_poll (poll_ret k)) ;;;
      if poll_ret k >? 0
      then st' <- loop_body s st k ;; handoff s st' rest
      else ret st
  end.

(** The loop that queues every buffer before [VIDIOC_STREAMON]. *)
Fixpoint queue_all (wd : world) (bs : list buffer) (i : nat) : M unit :=
  match bs with
  | [] => ret tt
  | b :: rest =>
      call (EV_QBUF (Z.of_nat i) (dbuf_fd b) (w_qbuf_init wd i)) ;;;
      BYE_ON (negb (w_qbuf_init wd i)) (BYE_QBUF_for_buffer i) ;;;
      queue_all wd rest (S i)
  end.

(** ** [main] *)

(** <linux/videodev2.h> *)
Definition V4L2_CAP_VIDEO_CAPTURE : Z := 1.

Definition get_some {A} (o : option A) (site : bye) : M A :=
  match o with
  | Some a => ret a
  | None => stop (Aborted site)
  end.

(** The format sent with [VIDIOC_S_FMT]: what [VIDIOC_G_FMT] gave, with the
    size and the layout of the command line written over it. *)
Definition requested_format (s : setup) (fmt : pix_format) : pix_format :=
  {| pix_width := if use_wh s then w s else pix_width fmt;
     pix_height := if use_wh s then h s else pix_height fmt;
     pix_pixelformat :=
       if in_fourcc s =? 0 then pix_pixelformat fmt else in_fourcc s;
     pix_bytesperline := pix_bytesperline fmt;
     pix_sizeimage := pix_sizeimage fmt |}.

(** Arguments, devices and the format of the producer, up to
    [VIDIOC_REQBUFS]: the setup with the final format written into it, and
    [size] and [pitch]. *)
Definition negotiate (opts : list (ascii * string)) (wd : world)
  : M (setup * Z * Z) :=
  let '(r, s) := parse_args opts in
  BYE_ON (negb (r =? 0)) BYE_parse_arguments ;;;
  BYE_ON (String.eqb (module s) EmptyString) BYE_module_missing ;;;
  BYE_ON (String.eqb (video s) EmptyString) BYE_video_missing ;;;
  call (EV_drmOpen (module s) (w_drmOpen wd)) ;;;
  BYE_ON (w_drmOpen wd <? 0) BYE_drmOpen ;;;
  call (EV_open (video s) (w_open wd)) ;;;
  BYE_ON (w_open wd <? 0) BYE_open_video ;;;
  call (EV_QUERYCAP (w_querycap wd)) ;;;
  caps <- get_some (w_querycap wd) BYE_QUERYCAP ;;
  BYE_ON (negb (Z.land (u32 (Z.lnot caps)) V4L2_CAP_VIDEO_CAPTURE =? 0))
    BYE_no_capture ;;;
  call (EV_G_FMT (w_g_fmt_start wd)) ;;;
  fmt0 <- get_some (w_g_fmt_start wd) BYE_G_FMT_start ;;
  call (EV_S_FMT (requested_format s fmt0) (w_s_fmt wd)) ;;;
  BYE_ON (negb (w_s_fmt wd)) BYE_S_FMT ;;;
  call (EV_G_FMT (w_g_fmt_final wd)) ;;;
  fmt <- get_some (w_g_fmt_final wd) BYE_G_FMT_final ;;
  call (EV_REQBUFS (buffer_count s) (w_reqbufs wd)) ;;;
  granted <- get_some (w_reqbufs wd) BYE_REQBUFS ;;
  BYE_ON (granted <? buffer_count s) BYE_allocated_only ;;;
  ret (set_h (pix_height fmt)
         (set_w (pix_width fmt) (set_in_fourcc (pix_pixelformat fmt) s)),
       pix_sizeimage fmt, pix_bytesperline fmt).

(** The pool: [buffer_count] calls of [buffer_create]. *)
Definition create_pool (wd : world) (s : setup) (size pitch : Z)
  : M (list buffer) :=
  create_buffers wd s size pitch (Z.to_nat (buffer_count s)) 0.

(** Output and plane. *)
Definition resolve (wd : world) (s : setup) : M setup :=
  rc <- find_crtc wd s ;;
  BYE_ON (negb (fst rc =? 0)) BYE_find_valid_mode ;;;
  rp <- find_plane wd (snd rc) ;;
  BYE_ON (negb (fst rp =? 0)) BYE_find_compatible_plane ;;;
  ret (snd rp).

(** Queue everything, start the producer, run the loop. *)
Definition run_stream (wd : world) (s : setup) (bs : list buffer)
  : M stream :=
  queue_all wd bs 0 ;;;
  call (EV_STREAMON (w_streamon wd)) ;;;
  BYE_ON (negb (w_streamon wd)) BYE_STREAMON ;;;
  handoff s
    {| v4lfd := w_open wd; current_buffer := -1; stream_buffer := bs |}
    (w_wakes wd).

Definition main_steps (opts : list (ascii * string)) (wd : world)
  : M stream :=
  n <- negotiate opts wd ;;
  let '(s, size, pitch) := n in
  bs <- create_pool wd s size pitch ;;
  s' <- resolve wd s ;;
  run_stream wd s' bs.

(** The whole program: its calls, and how the process ends. *)
Definition main (opts : list (ascii * string)) (wd : world)
  : list event * outcome :=
  let m := main_steps opts wd in
  (trace_of m,
   match result_of m with
   | inl _ => Returned 0
   | inr o => o
   end).

(** ** Concrete worlds

    A display with one connector (60) on one CRTC (50) and two planes: 80
    takes only NV12, 81 takes XR24 and YUYV.  The camera delivers 640x480
    YUYV.  Buffer [i] gets allocation [1 + i], descriptor [10 + i] and
    framebuffer [100 + i]. *)

Definition XR24 : Z := fourcc_of "XR24".
Definition YUYV : Z := fourcc_of "YUYV".
Definition NV12 : Z := fourcc_of "NV12".

Definition camera_format : pix_format :=
  {| pix_width := 640; pix_height := 480; pix_pixelformat := YUYV;
     pix_bytesperline := 1280; pix_sizeimage := 614400 |}.

Definition create_ok (i : nat) : create_reply :=
  {| cr_dumb := Some (1 + Z.of_nat i); cr_prime := Some (10 + Z.of_nat i);
     cr_addfb := Some (100 + Z.of_nat i); cr_destroy := true |}.

Definition demo_planes (id : Z) : option drmModePlane :=
  if id =? 80 then
    Some {| plane_id := 80; possible_crtcs := 1; formats := [NV12] |}
  else if id =? 81 then
    Some {| plane_id := 81; possible_crtcs := 1; formats := [XR24; YUYV] |}
  else None.

Definition demo_world (create : nat -> create_reply) (plane_ids : list Z)
    (wakes : list wake) : world :=
  {| w_drmOpen := 3;
     w_open := 4;
     w_querycap := Some 1;
     w_g_fmt_start := Some camera_format;
     w_s_fmt := true;
     w_g_fmt_final := Some camera_format;
     w_reqbufs := Some 4;
     w_create := create;
     w_resources := Some {| crtcs := [50]; connectors := [60] |};
     w_connector := fun id =>
       if id =? 60
       then Some {| connector_id := 60; encoder_id := 70; count_modes := 1 |}
       else None;
     w_encoder := fun id =>
       if id =? 70 then Some {| enc_crtc_id := 50 |} else None;
     w_crtc := fun id =>
       if id =? 50
       then Some {| crtc_id := 50; crtc_x := 0; crtc_y := 0;
                    crtc_width := 1920; crtc_height := 1080 |}
       else None;
     w_plane_resources := Some plane_ids;
     w_plane := demo_planes;
     w_qbuf_init := fun _ => true;
     w_streamon := true;
     w_wakes := wakes |}.

(** A wake for a finished frame in buffer [i], every call succeeding. *)
Definition frame (i : Z) : wake :=
  {| poll_ret := 1; revents_v4l := true; revents_drm := false;
     dqbuf_reply := Some i; setplane_reply := true; qbuf_reply := true |}.

Definition demo_opts (count : string) : list (ascii * string) :=
  [("M"%char, "vc4"%string); ("i"%char, "/dev/video0"%string);
   ("F"%char, "YUYV"%string); ("b"%char, count)].

(** Two buffers and a producer that fills them in the order it got them:
    0, then 1, then 0 again, which the second turn had given back. *)
Definition pingpong_world : world :=
  demo_world create_ok [80; 81] [frame 0; frame 1; frame 0].

(** The second [DRM_IOCTL_MODE_CREATE_DUMB] fails. *)
Definition create_second_fails (i : nat) : create_reply :=
  if Nat.eqb i 1
  then {| cr_dumb := None; cr_prime := None; cr_addfb := None;
          cr_destroy := true |}
  else create_ok i.

(** A display whose only plane takes NV12, not the YUYV asked for. *)
Definition nv12_only_world : world := demo_world create_ok [80] [].

(** The fifth dequeue fails. *)
Definition dqbuf_fails : wake :=
  {| poll_ret := 1; revents_v4l := true; revents_drm := false;
     dqbuf_reply := None; setplane_reply := true; qbuf_reply := true |}.

Definition fifth_frame_world : world :=
  demo_world create_ok [80; 81]
    [frame 0; frame 1; frame 0; frame 0; dqbuf_fails].

(** [poll] returns for the display descriptor alone; the dequeue that the
    loop goes on to make waits for the frame the producer is working on
    (the video node is not opened [O_NONBLOCK]) and gets buffer [i]. *)
Definition display_event (i : Z) : wake :=
  {| poll_ret := 1; revents_v4l := false; revents_drm := true;
     dqbuf_reply := Some i; setplane_reply := true; qbuf_reply := true |}.

(** The same wake with other [revents]. *)
Definition with_revents (v4l drm : bool) (k : wake) : wake :=
  {| poll_ret := poll_ret k; revents_v4l := v4l; revents_drm := drm;
     dqbuf_reply := dqbuf_reply k; setplane_reply := setplane_reply k;
     qbuf_reply := qbuf_reply k |}.

(** One buffer, one frame: with the only buffer on the plane the producer
    has nothing left to fill, and [poll] times out. *)
Definition single_world : world := demo_world create_ok [80; 81] [frame 0].

(** The pool of two buffers that [create_ok] gives, and the loop state
    with buffer [i] recorded. *)
Definition demo_pool : list buffer :=
  [{| bo_handle := 1; fb_handle := 100; dbuf_fd := 10 |};
   {| bo_handle := 2; fb_handle := 101; dbuf_fd := 11 |}].

Definition stream_recording (i : Z) : stream :=
  {| v4lfd := 4; current_buffer := i; stream_buffer := demo_pool |}.

(** A crop of 320x240 at the origin is asked for with [-s]. *)
Definition crop_opts : list (ascii * string) :=
  demo_opts "2" ++ [("s"%char, "320,240@0,0"%string)].

(** ** Reading a trace *)

(** Calls that give something back to the kernel: the program has two,
    [close] of an exported descriptor and [DRM_IOCTL_MODE_DESTROY_DUMB];
    it has no call that removes a framebuffer. *)
Definition is_release (e : event) : bool :=
  match e with
  | EV_close _ | EV_DESTROY_DUMB _ _ => true
  | _ => false
  end.

Definition releases (t : list event) : list event := filter is_release t.

Definition is_allocation (e : event) : bool :=
  match e with
  | EV_CREATE_DUMB _ _ _ _ (Some _) => true
  | _ => false
  end.

(** How many dumb buffers the trace allocates. *)
Definition allocations (t : list event) : nat :=
  List.length (filter is_allocation t).

Definition remove_id (x : Z) (l : list Z) : list Z :=
  filter (fun y => negb (y =? x)) l.

(** Allocations, exported descriptors and framebuffers that exist after the
    trace, oldest first. *)
Definition live_step (live : list Z * list Z * list Z) (e : event)
  : list Z * list Z * list Z :=
  let '(bos, fds, fbs) := live in
  match e with
  | EV_CREATE_DUMB _ _ _ _ (Some handle) => (bos ++ [handle], fds, fbs)
  | EV_DESTROY_DUMB handle true => (remove_id handle bos, fds, fbs)
  | EV_PRIME_HANDLE_TO_FD _ (Some fd) => (bos, fds ++ [fd], fbs)
  | EV_close fd => (bos, remove_id fd fds, fbs)
  | EV_AddFB2 _ _ _ _ _ (Some fb) => (bos, fds, fbs ++ [fb])
  | _ => live
  end.

Definition live_after (t : list event) : list Z * list Z * list Z :=
  fold_left live_step t ([], [], []).

Definition live_allocations (t : list event) : list Z :=
  fst (fst (live_after t)).
Definition open_handles (t : list event) : list Z := snd (fst (live_after t)).
Definition registered (t : list event) : list Z := snd (live_after t).

(** What [buffer_create] itself gives back when it fails, by the point of
    the failure. *)
Definition rollback_of (rep : create_reply) : list event :=
  match cr_dumb rep, cr_prime rep, cr_addfb rep with
  | None, _, _ => []
  | Some handle, None, _ => [EV_DESTROY_DUMB handle (cr_destroy rep)]
  | Some handle, Some fd, None =>
      [EV_close fd; EV_DESTROY_DUMB handle (cr_destroy rep)]
  | Some _, Some _, Some _ => []
  end.

Definition create_fails (rep : create_reply) : bool :=
  negb (is_some (cr_dumb rep) && is_some (cr_prime rep)
        && is_some (cr_addfb rep)).

(** The producer's side of the buffers: the indices queued to it, in the
    order they were queued.  A successful [VIDIOC_QBUF] appends, a
    [VIDIOC_DQBUF] takes its index out. *)
Definition queue_step (q : list Z) (e : event) : list Z :=
  match e with
  | EV_QBUF index _ true => q ++ [index]
  | EV_DQBUF (Some index) => remove_id index q
  | _ => q
  end.

Definition queued_after (t : list event) : list Z :=
  fold_left queue_step t [].

(** Whether the trace is one a first-in first-out producer can take part
    in: it never gets a buffer it already holds, and every dequeue hands
    out the buffer that has been queued longest. *)
Fixpoint fifo_producer (q : list Z) (t : list event) : bool :=
  match t with
  | [] => true
  | EV_QBUF index _ true :: t' =>
      negb (existsb (Z.eqb index) q) && fifo_producer (q ++ [index]) t'
  | EV_DQBUF (Some index) :: t' =>
      match q with
      | first :: q' => (index =? first) && fifo_producer q' t'
      | [] => false
      end
  | _ :: t' => fifo_producer q t'
  end.

(** The framebuffer on the plane after the trace: the one given to the
    last [drmModeSetPlane] that succeeded. *)
Definition shown_step (shown : option Z) (e : event) : option Z :=
  match e with
  | EV_SetPlane _ _ fb _ _ _ _ _ _ _ _ true => Some fb
  | _ => shown
  end.

Definition shown_after (t : list event) : option Z :=
  fold_left shown_step t None.

Fixpoint index_of_fb (bs : list buffer) (fb : Z) (i : Z) : option Z :=
  match bs with
  | [] => None
  | b :: rest =>
      if fb_handle b =? fb then Some i else index_of_fb rest fb (i + 1)
  end.

(** The index of the buffer that is presenting after the trace. *)
Definition presenting (bs : list buffer) (t : list event) : option Z :=
  match shown_after t with
  | Some fb => index_of_fb bs fb 0
  | None => None
  end.

(** The turns of the streaming loop: for every [poll] of the trace, the
    events up to the next [poll]. *)
Fixpoint until_poll (t : list event) : list event :=
  match t with
  | [] => []
  | EV_poll _ :: _ => []
  | e :: t' => e :: until_poll t'
  end.

Fixpoint turns (t : list event) : list (list event) :=
  match t with
  | [] => []
  | EV_poll _ :: t' => until_poll t' :: turns t'
  | _ :: t' => turns t'
  end.

(** The indices given back to the producer in a piece of trace. *)
Fixpoint requeued (t : list event) : list Z :=
  match t with
  | [] => []
  | EV_QBUF index _ _ :: t' => index :: requeued t'
  | _ :: t' => requeued t'
  end.

(** The indices taken from the producer in a piece of trace. *)
Fixpoint dequeued (t : list event) : list Z :=
  match t with
  | [] => []
  | EV_DQBUF (Some index) :: t' => index :: dequeued t'
  | _ :: t' => dequeued t'
  end.

(** The source rectangles given to [drmModeSetPlane] in a trace. *)
Fixpoint source_rects (t : list event) : list (Z * Z * Z * Z) :=
  match t with
  | [] => []
  | EV_SetPlane _ _ _ _ _ _ _ sx sy sw sh _ :: t' =>
      (sx, sy, sw, sh) :: source_rects t'
  | _ :: t' => source_rects t'
  end.

(** The destination rectangles given to [drmModeSetPlane] in a trace. *)
Fixpoint destination_rects (t : list event) : list v4l2_rect :=
  match t with
  | [] => []
  | EV_SetPlane _ _ _ dx dy dw dh _ _ _ _ _ :: t' =>
      {| rect_left := dx; rect_top := dy; rect_width := dw;
         rect_height := dh |} :: destination_rects t'
  | _ :: t' => destination_rects t'
  end.

(** The setup of the demo command line once the camera format is known:
    [-F YUYV], 640x480, CRTC 50 at index 0. *)
Definition demo_setup : setup :=
  set_h 480 (set_w 640 (set_in_fourcc YUYV
    (set_crtcId 50 (set_out_fourcc YUYV (set_buffer_count 2 zero_setup))))).

(** The same without [-F]: [out_fourcc] stays 0. *)
Definition no_F_setup : setup := set_out_fourcc 0 demo_setup.

Definition plane_80 : drmModePlane :=
  {| plane_id := 80; possible_crtcs := 1; formats := [NV12] |}.
Definition plane_81 : drmModePlane :=
  {| plane_id := 81; possible_crtcs := 1; formats := [XR24; YUYV] |}.

(** ** Plane resolution, in the words of its description

    A plane is compatible when its CRTC mask has the bit of the chosen
    CRTC and its format list holds the presentation layout; the resolver
    is to take the first compatible plane of the reported list. *)

Definition compatible (s : setup) (p : drmModePlane) : bool :=
  Z.testbit (possible_crtcs p) (crtcIdx s)
  && existsb (Z.eqb (out_fourcc s)) (formats p).

Definition first_compatible (s : setup) (planes : list drmModePlane)
  : option drmModePlane :=
  find (compatible s) planes.

(** How many planes of the list a single pass looks at: up to and with the
    first compatible one. *)
Fixpoint looked_at (s : setup) (planes : list drmModePlane) : nat :=
  match planes with
  | [] => O
  | p :: rest => if compatible s p then 1%nat else S (looked_at s rest)
  end.

(** ** Stages and what a computation may do

    The [BYE_ON] sites by the stage of [main] they belong to. *)

Inductive stage :=
| Negotiation
| Pool
| Resolution
| Streaming.

Definition stage_of (b : bye) : stage :=
  match b with
  | BYE_create_buffer _ => Pool
  | BYE_find_valid_mode | BYE_find_compatible_plane => Resolution
  | BYE_QBUF_for_buffer _ | BYE_STREAMON | BYE_DQBUF | BYE_SetPlane
  | BYE_QBUF_index _ => Streaming
  | _ => Negotiation
  end.

Definition stage_eqb (a b : stage) : bool :=
  match a, b with
  | Negotiation, Negotiation | Pool, Pool | Resolution, Resolution
  | Streaming, Streaming => true
  | _, _ => false
  end.

(** The calls by the stage of [main] that makes them. *)
Definition event_stage (e : event) : stage :=
  match e with
  | EV_drmOpen _ _ | EV_open _ _ | EV_QUERYCAP _ | EV_G_FMT _
  | EV_S_FMT _ _ | EV_REQBUFS _ _ => Negotiation
  | EV_CREATE_DUMB _ _ _ _ _ | EV_PRIME_HANDLE_TO_FD _ _
  | EV_AddFB2 _ _ _ _ _ _ | EV_close _ | EV_DESTROY_DUMB _ _ => Pool
  | EV_GetResources _ | EV_GetConnector _ _ | EV_GetEncoder _ _
  | EV_GetCrtc _ _ | EV_GetPlaneResources _ | EV_GetPlane _ _ => Resolution
  | EV_QBUF _ _ _ | EV_STREAMON _ | EV_poll _ | EV_DQBUF _
  | EV_SetPlane _ _ _ _ _ _ _ _ _ _ _ _ => Streaming
  end.

Definition stage_rank (st : stage) : nat :=
  match st with
  | Negotiation => 0
  | Pool => 1
  | Resolution => 2
  | Streaming => 3
  end.

(** [a] is a call of a stage not later than the stage of [b]. *)
Definition not_after (a b : event) : Prop :=
  (stage_rank (event_stage a) <= stage_rank (event_stage b))%nat.

Definition in_stage (st : stage) (e : event) : bool :=
  stage_eqb (event_stage e) st.

Definition any_end (o : outcome) : bool := true.

(** An end of the process that is not an [abort] of another stage. *)
Definition stops_in (st : stage) (o : outcome) : bool :=
  match o with
  | Aborted b => stage_eqb (stage_of b) st
  | _ => true
  end.

(** An end of the process that is not an [abort]: [exit] or a fault. *)
Definition no_abort (o : outcome) : bool :=
  match o with
  | Aborted _ => false
  | _ => true
  end.

(** The [abort] of the loop that queues the buffers before streaming. *)
Definition queue_abort (o : outcome) : bool :=
  match o with
  | Aborted (BYE_QBUF_for_buffer _) => true
  | _ => false
  end.

(** An event that neither allocates nor gives back. *)
Definition quiet (e : event) : bool :=
  negb (is_allocation e) && negb (is_release e).

(** [sat P Q m]: every event of [m] passes [P], and if [m] ends the
    process, the end passes [Q]. *)
Definition sat {A} (P : event -> bool) (Q : outcome -> bool) (m : M A)
  : Prop :=
  forallb P (trace_of m) = true
  /\ match result_of m with
     | inr o => Q o = true
     | inl _ => True
     end.

(** The call of the streaming loop that failed. *)
Definition failed_call (e : event) : bool :=
  match e with
  | EV_DQBUF None => true
  | EV_SetPlane _ _ _ _ _ _ _ _ _ _ _ false => true
  | _ => false
  end.

(** An event of the stages before the loop: quiet, and not a failed call
    of the loop. *)
Definition calm (e : event) : bool := quiet e && negb (failed_call e).

(** The call that gives the recorded buffer back in a turn, when a buffer
    is recorded and lies in the pool. *)
Definition give_back (st : stream) : list event :=
  if current_buffer st =? -1 then []
  else
    match buffer_at (stream_buffer st) (current_buffer st) with
    | Some cb => [EV_QBUF (u32 (current_buffer st)) (dbuf_fd cb) true]
    | None => []
    end.

(** The present call of a turn for buffer [b], succeeding. *)
Definition present_of (s : setup) (b : buffer) : event :=
  EV_SetPlane (planeId s) (crtcId s) (fb_handle b)
    (rect_left (compose s)) (rect_top (compose s))
    (rect_width (compose s)) (rect_height (compose s))
    0 0 (u32 (Z.shiftl (w s) 16)) (u32 (Z.shiftl (h s) 16)) true.

(** ** The descriptions that the code is compared with *)

(** Pool construction is all-or-nothing: when the loop of [main] stops at
    a buffer that could not be created, no allocation, descriptor or
    framebuffer of the pool is left. *)
Definition pool_all_or_nothing (wd : world) (s : setup) (size pitch : Z)
  : Prop :=
  forall i,
    result_of (create_pool wd s size pitch)
    = inr (Aborted (BYE_create_buffer i)) ->
    live_after (trace_of (create_pool wd s size pitch)) = ([], [], []).

(** Resolution before allocation: a session that ends for want of a
    compatible plane has not allocated anything. *)
Definition resolves_before_allocating (opts : list (ascii * string))
    (wd : world) : Prop :=
  snd (main opts wd) = Aborted BYE_find_compatible_plane ->
  allocations (fst (main opts wd)) = O.

(** A pool of one buffer is turned away: the producer is never started. *)
Definition rejects_single_buffer (opts : list (ascii * string))
    (wd : world) : Prop :=
  buffer_count (snd (parse_args opts)) = 1 ->
  forall ok, ~ In (EV_STREAMON ok) (fst (main opts wd)).

(** A wake for the display alone carries no buffer transition: nothing is
    dequeued and nothing is queued in the turn, and the loop goes on with
    its state as it was; the wake serves liveness only. *)
Definition display_wake_moves_nothing (s : setup) (st : stream) (k : wake)
  : Prop :=
  revents_v4l k = false -> revents_drm k = true ->
  dequeued (trace_of (loop_body s st k)) = []
  /\ requeued (trace_of (loop_body s st k)) = []
  /\ result_of (loop_body s st k) = inl st.

(** After a failed dequeue or present, the pool is torn down: every
    allocation and every exported descriptor is given back. *)
Definition torn_down_after_fault (opts : list (ascii * string)) (wd : world)
  : Prop :=
  snd (main opts wd) = Aborted BYE_DQBUF
  \/ snd (main opts wd) = Aborted BYE_SetPlane ->
  live_allocations (fst (main opts wd)) = []
  /\ open_handles (fst (main opts wd)) = [].

(** ** The message of [buffer_create]

    [fprintf (stderr, "FB fourcc %c%c%c%c\n", fourcc, fourcc >> 8,
    fourcc >> 16, fourcc >> 24)]: every argument is written as the
    character of its low byte. *)

Definition char_of_int (x : Z) : ascii :=
  ascii_of_nat (Z.to_nat (x mod 256)).

Definition fourcc_text (fourcc : Z) : string :=
  String (char_of_int fourcc)
    (String (char_of_int (Z.shiftr fourcc 8))
       (String (char_of_int (Z.shiftr fourcc 16))
          (String (char_of_int (Z.shiftr fourcc 24)) EmptyString))).

(** A character of the 7-bit set. *)
Definition seven_bit (c : ascii) : Prop := (nat_of_ascii c < 128)%nat.

(** ** Connectors, in the words of the message of [find_crtc]

    "Choosing default from list": a connector can be chosen when it has an
    encoder, the encoder has a CRTC, and the CRTC can be fetched. *)

Definition connector_crtc (wd : world) (id : Z)
  : option (drmModeConnector * drmModeCrtc) :=
  match w_connector wd id with
  | Some con =>
      if encoder_id con =? 0 then None
      else
        match w_encoder wd (encoder_id con) with
        | Some enc =>
            if enc_crtc_id enc =? 0 then None
            else
              match w_crtc wd (enc_crtc_id enc) with
              | Some crtc => Some (con, crtc)
              | None => None
              end
        | None => None
        end
  | None => None
  end.

Fixpoint first_connector (wd : world) (ids : list Z)
  : option (drmModeConnector * drmModeCrtc) :=
  match ids with
  | [] => None
  | id :: rest =>
      match connector_crtc wd id with
      | Some r => Some r
      | None => first_connector wd rest
      end
  end.

(** Every connector of the list can be fetched, and so can its encoder
    when it names one: the loop follows no NULL pointer. *)
Definition connectors_fetched (wd : world) (ids : list Z) : Prop :=
  forall id, In id ids ->
    exists con,
      w_connector wd id = Some con
      /\ (encoder_id con <> 0 ->
          exists enc, w_encoder wd (encoder_id con) = Some enc).

(** How [find_crtc] comes to the connector and the CRTC it goes on with:
    those of the command line, or, when no connector was given, what the
    loop over the connectors chose, which must be something. *)
Definition connector_settled (wd : world) (res : drmModeRes)
    (s s1 : setup) : Prop :=
  (conId s <> 0 /\ s1 = s)
  \/ (conId s = 0
      /\ result_of (choose_connector wd (connectors res) s) = inl s1
      /\ conId s1 <> 0).

(** The rectangle of a CRTC as [find_crtc] stores it in [compose]. *)
Definition crtc_rect (crtc : drmModeCrtc) : v4l2_rect :=
  {| rect_left := s32 (crtc_x crtc); rect_top := s32 (crtc_y crtc);
     rect_width := u32 (crtc_width crtc);
     rect_height := u32 (crtc_height crtc) |}.

(** What every present call of the loop has in common, whatever its
    framebuffer and its result. *)
Definition is_present_of (s : setup) (e : event) : Prop :=
  match e with
  | EV_SetPlane plane crtc fb dx dy dw dh sx sy sw sh _ =>
      plane = planeId s /\ crtc = crtcId s
      /\ dx = rect_left (compose s) /\ dy = rect_top (compose s)
      /\ dw = rect_width (compose s) /\ dh = rect_height (compose s)
      /\ sx = 0 /\ sy = 0
      /\ sw = u32 (Z.shiftl (w s) 16) /\ sh = u32 (Z.shiftl (h s) 16)
  | _ => True
  end.

(** The present calls of a trace, each with the index that the last
    successful dequeue before it gave: (index, framebuffer).  [last] is
    the index dequeued last before the trace. *)
Fixpoint shown_for (last : option Z) (t : list event) : list (Z * Z) :=
  match t with
  | [] => []
  | EV_DQBUF (Some index) :: t' => shown_for (Some index) t'
  | EV_SetPlane _ _ fb _ _ _ _ _ _ _ _ _ :: t' =>
      match last with
      | Some index => (index, fb) :: shown_for last t'
      | None => shown_for last t'
      end
  | _ :: t' => shown_for last t'
  end.

(** The events of the loop that queues a pool before streaming, every
    call succeeding: buffer [from + j] with its own descriptor. *)
Definition queue_events (bs : list buffer) (from : nat) : list event :=
  map (fun jb => EV_QBUF (Z.of_nat (fst jb)) (dbuf_fd (snd jb)) true)
    (combine (seq from (List.length bs)) bs).

(** ** Facts about computations *)

Lemma bind_inl {A B} (m : M A) (k : A -> M B) a :
  result_of m = inl a ->
  bind m k = (trace_of m ++ trace_of (k a), result_of (k a)).
Proof. unfold bind, result_of, trace_of; intros ->; reflexivity. Qed.

Lemma bind_inr {A B} (m : M A) (k : A -> M B) o :
  result_of m = inr o -> bind m k = (trace_of m, inr o).
Proof. unfold bind, result_of, trace_of; intros ->; reflexivity. Qed.

Lemma bind_cases {A B} (m : M A) (k : A -> M B) :
  (exists a, result_of m = inl a /\
             bind m k = (trace_of m ++ trace_of (k a), result_of (k a)))
  \/ (exists o, result_of m = inr o /\ bind m k = (trace_of m, inr o)).
Proof.
  destruct (result_of m) as [a | o] eqn:E.
  - left; exists a; split; [reflexivity | now apply bind_inl].
  - right; exists o; split; [reflexivity | now apply bind_inr].
Qed.

Lemma result_of_bind {A B} (m : M A) (k : A -> M B) a :
  result_of m = inl a -> result_of (bind m k) = result_of (k a).
Proof. intros H; now rewrite (bind_inl m k a H). Qed.

Lemma bind_returns {A B} (m : M A) (k : A -> M B) b :
  result_of (bind m k) = inl b ->
  exists a, result_of m = inl a /\ result_of (k a) = inl b.
Proof.
  destruct (bind_cases m k) as [[a [Ha E]] | [o [_ E]]]; rewrite E.
  - intros H; exists a; split; [exact Ha | exact H].
  - intros H; discriminate H.
Qed.

Lemma trace_of_pair {A} (t : list event) (r : A + outcome) :
  trace_of (t, r) = t.
Proof. reflexivity. Qed.

Lemma result_of_pair {A} (t : list event) (r : A + outcome) :
  result_of (t, r) = r.
Proof. reflexivity. Qed.

Lemma bind_call {B} (e : event) (k : unit -> M B) :
  bind (call e) k = (e :: trace_of (k tt), result_of (k tt)).
Proof. reflexivity. Qed.

Lemma bind_stops {A B} (m : M A) (k : A -> M B) o :
  result_of (bind m k) = inr o ->
  (result_of m = inr o /\ trace_of (bind m k) = trace_of m)
  \/ exists a, result_of m = inl a /\ result_of (k a) = inr o
               /\ trace_of (bind m k) = trace_of m ++ trace_of (k a).
Proof.
  destruct (bind_cases m k) as [[a [Ha E]] | [o' [Ho E]]]; rewrite E.
  - intros H; right; exists a; repeat split; assumption.
  - intros H; injection H as <-; left; split; [exact Ho | reflexivity].
Qed.

Lemma BYE_ON_trace cond site : trace_of (BYE_ON cond site) = [].
Proof. now destruct cond. Qed.

Lemma BYE_ON_stops cond site o :
  result_of (BYE_ON cond site) = inr o -> o = Aborted site.
Proof.
  destruct cond; intros H; [now injection H as <- | discriminate H].
Qed.

Lemma BYE_ON_returns cond site u :
  result_of (BYE_ON cond site) = inl u -> cond = false.
Proof. destruct cond; [intros H; discriminate H | reflexivity]. Qed.

Lemma get_some_returns {A} (o : option A) site a :
  result_of (get_some o site) = inl a -> o = Some a.
Proof.
  destruct o; simpl; intros H; [now injection H as -> | discriminate H].
Qed.

(** ** Machine-integer facts *)

Lemma crtc_bit_pow2 idx : 0 <= idx < 32 -> crtc_bit idx = 2 ^ idx.
Proof.
  intros H; unfold crtc_bit, u32.
  rewrite Z.shiftl_1_l.
  apply Z.mod_small; split; [apply Z.pow_nonneg; lia |].
  apply Z.pow_lt_mono_r; lia.
Qed.

Lemma land_pow2_testbit a n :
  0 <= n -> (Z.land a (2 ^ n) =? 0) = negb (Z.testbit a n).
Proof.
  intros Hn.
  destruct (Z.testbit a n) eqn:E; simpl.
  - apply Z.eqb_neq; intros H0.
    assert (Z.testbit (Z.land a (2 ^ n)) n = true) as Hb.
    { rewrite Z.land_spec, E, Z.pow2_bits_true; auto. }
    rewrite H0, Z.bits_0 in Hb; discriminate.
  - apply Z.eqb_eq, Z.bits_inj'; intros m Hm.
    rewrite Z.land_spec, Z.bits_0.
    destruct (Z.eq_dec n m) as [<- | Hne].
    + now rewrite E.
    + rewrite (Z.pow2_bits_false n m); auto using andb_false_r.
Qed.

(** ** Plane resolution *)

Lemma format_index_end fmts fourcc j :
  Nat.eqb (format_index fmts fourcc j) (j + List.length fmts)
  = negb (existsb (Z.eqb fourcc) fmts).
Proof.
  revert j; induction fmts as [| f rest IH]; intros j; simpl.
  - rewrite Nat.add_0_r; apply Nat.eqb_refl.
  - rewrite (Z.eqb_sym fourcc f).
    destruct (f =? fourcc); simpl.
    + apply Nat.eqb_neq; lia.
    + rewrite <- (IH (S j)); f_equal; lia.
Qed.

Lemma plane_skipped_iff (s : setup) (p : drmModePlane) :
  0 <= crtcIdx s < 32 ->
  (if Z.land (possible_crtcs p) (crtc_bit (crtcIdx s)) =? 0 then true
   else Nat.eqb (format_index (formats p) (out_fourcc s) 0)
                (List.length (formats p)))
  = negb (compatible s p).
Proof.
  intros Hidx; unfold compatible.
  rewrite crtc_bit_pow2, land_pow2_testbit by lia.
  destruct (Z.testbit (possible_crtcs p) (crtcIdx s)); simpl; [| reflexivity].
  apply (format_index_end (formats p) (out_fourcc s) 0).
Qed.

Lemma scan_planes_first_compatible (wd : world) (s : setup) :
  0 <= crtcIdx s < 32 ->
  forall ids planes,
    map (w_plane wd) ids = map Some planes ->
    scan_planes wd ids s
    = (map (fun id => EV_GetPlane id true) (firstn (looked_at s planes) ids),
       inl (option_map plane_id (first_compatible s planes))).
Proof.
  intros Hidx; induction ids as [| id ids IH]; intros planes Hmap.
  - destruct planes; [reflexivity | discriminate].
  - destruct planes as [| p planes]; [discriminate |].
    simpl in Hmap; injection Hmap as Hp Hrest.
    specialize (IH planes Hrest).
    pose proof (plane_skipped_iff s p Hidx) as Hskip.
    simpl; rewrite Hp; unfold first_compatible in *; simpl.
    destruct (compatible s p); simpl in Hskip.
    + destruct (Z.land (possible_crtcs p) (crtc_bit (crtcIdx s)) =? 0);
        [discriminate |].
      rewrite Hskip; reflexivity.
    + destruct (Z.land (possible_crtcs p) (crtc_bit (crtcIdx s)) =? 0);
        [| rewrite Hskip]; unfold bind; simpl; rewrite IH; reflexivity.
Qed.

(** The result of [find_plane] does not look at [planeId]. *)
Lemma scan_planes_planeId (wd : world) (s : setup) (v : Z) ids :
  scan_planes wd ids (set_planeId v s) = scan_planes wd ids s.
Proof.
  induction ids as [| id ids IH]; [reflexivity |].
  simpl; unfold bind; simpl.
  destruct (w_plane wd id) as [p |]; [| reflexivity].
  destruct (Z.land _ _ =? 0); [now rewrite IH |].
  destruct (Nat.eqb _ _); [now rewrite IH | reflexivity].
Qed.

(** C8.  [find_plane] goes once through the plane list the display
    reports, in its order, skipping the planes whose CRTC mask lacks the
    bit of the chosen CRTC and the planes whose format list does not hold
    [out_fourcc]; it stops at the first plane left, whose id it stores,
    and returns -1 when no plane is left.  Run again on the setup it
    produced, over the same list, it picks the same plane. *)
Theorem find_plane_first_match (wd : world) (s : setup) (ids : list Z)
    (planes : list drmModePlane) :
  0 <= crtcIdx s < 32 ->
  w_plane_resources wd = Some ids ->
  map (w_plane wd) ids = map Some planes ->
  let chosen :=
    match first_compatible s planes with
    | Some p => (0, set_planeId (plane_id p) s)
    | None => (-1, s)
    end in
  result_of (find_plane wd s) = inl chosen
  /\ trace_of (find_plane wd s)
     = EV_GetPlaneResources true
       :: map (fun id => EV_GetPlane id true)
            (firstn (looked_at s planes) ids)
  /\ result_of (find_plane wd (snd chosen)) = inl chosen.
Proof.
  intros Hidx Hres Hmap chosen.
  assert (forall v, find_plane wd (set_planeId v s)
                    = (EV_GetPlaneResources true
                       :: map (fun id => EV_GetPlane id true)
                            (firstn (looked_at s planes) ids),
                       inl match first_compatible s planes with
                           | Some p =>
                               (0, set_planeId (plane_id p)
                                     (set_planeId v s))
                           | None => (-1, set_planeId v s)
                           end)) as Hrun.
  { intros v; unfold find_plane; rewrite Hres.
    unfold bind at 1; simpl.
    rewrite scan_planes_planeId.
    rewrite (scan_planes_first_compatible wd s Hidx ids planes Hmap).
    unfold bind; simpl.
    destruct (first_compatible s planes); simpl;
      rewrite app_nil_r; reflexivity. }
  assert (find_plane wd s
          = (EV_GetPlaneResources true
             :: map (fun id => EV_GetPlane id true)
                  (firstn (looked_at s planes) ids), inl chosen)) as Hfirst.
  { unfold find_plane; rewrite Hres.
    unfold bind at 1; simpl.
    rewrite (scan_planes_first_compatible wd s Hidx ids planes Hmap).
    unfold bind; simpl; subst chosen.
    destruct (first_compatible s planes); simpl;
      rewrite app_nil_r; reflexivity. }
  split; [now rewrite Hfirst |].
  split; [now rewrite Hfirst |].
  subst chosen; destruct (first_compatible s planes) as [p |]; cbn [snd].
  - rewrite Hrun; reflexivity.
  - rewrite Hfirst; reflexivity.
Qed.

Lemma find_plane_first_match_witness :
  result_of (find_plane pingpong_world demo_setup)
  = inl (0, set_planeId 81 demo_setup).
Proof.
  refine (proj1 (find_plane_first_match pingpong_world demo_setup [80; 81]
                   [plane_80; plane_81] _ _ _)).
  - vm_compute; split; [intro H; discriminate H | reflexivity].
  - reflexivity.
  - reflexivity.
Defined.

Lemma scan_planes_no_format (wd : world) (s : setup) :
  forall ids planes,
    map (w_plane wd) ids = map Some planes ->
    (forall p, In p planes -> ~ In (out_fourcc s) (formats p)) ->
    result_of (scan_planes wd ids s) = inl None.
Proof.
  induction ids as [| id ids IH]; intros planes Hmap Hno.
  - reflexivity.
  - destruct planes as [| p planes]; [discriminate |].
    simpl in Hmap; injection Hmap as Hp Hrest.
    assert (result_of (scan_planes wd ids s) = inl None) as Hrec.
    { apply (IH planes Hrest); intros q Hq; apply Hno; now right. }
    assert (Nat.eqb (format_index (formats p) (out_fourcc s) 0)
                    (List.length (formats p)) = true) as Hend.
    { pose proof (format_index_end (formats p) (out_fourcc s) 0) as H0.
      cbn [Nat.add] in H0; rewrite H0.
      destruct (existsb (Z.eqb (out_fourcc s)) (formats p)) eqn:E;
        [| reflexivity].
      apply existsb_exists in E; destruct E as [f [Hin Hf]].
      apply Z.eqb_eq in Hf; subst f.
      exfalso; apply (Hno p); [now left | exact Hin]. }
    simpl; rewrite Hp, Hend.
    unfold bind, result_of in *; simpl.
    destruct (Z.land _ _ =? 0); rewrite Hrec; reflexivity.
Qed.

(** C10.  With [out_fourcc] left at 0, [buffer_create] registers the
    framebuffer with [in_fourcc], while [find_plane] still looks for the
    value 0 in the format lists: over any plane list in which no format is
    0 it returns -1, although the framebuffer was registered. *)
Theorem out_fourcc_zero_mismatch (wd : world) (s : setup)
    (rep : create_reply) (size pitch handle fd fb : Z) (ids : list Z)
    (planes : list drmModePlane) :
  out_fourcc s = 0 ->
  cr_dumb rep = Some handle ->
  cr_prime rep = Some fd ->
  cr_addfb rep = Some fb ->
  w_plane_resources wd = Some ids ->
  map (w_plane wd) ids = map Some planes ->
  (forall p, In p planes -> ~ In 0 (formats p)) ->
  buffer_create rep s size pitch
  = ([EV_CREATE_DUMB (w s) (h s) 32 size (Some handle);
      EV_PRIME_HANDLE_TO_FD handle (Some fd);
      EV_AddFB2 (w s) (h s) (in_fourcc s) handle pitch (Some fb)],
     Some {| bo_handle := handle; fb_handle := fb; dbuf_fd := fd |})
  /\ result_of (find_plane wd s) = inl (-1, s).
Proof.
  intros Hout Hdumb Hprime Haddfb Hres Hmap Hno; split.
  - unfold buffer_create, fb_fourcc.
    rewrite Hdumb, Hprime, Haddfb, Hout; reflexivity.
  - rewrite <- Hout in Hno.
    pose proof (scan_planes_no_format wd s ids planes Hmap Hno) as Hscan.
    unfold find_plane; rewrite Hres.
    unfold bind, result_of in *; simpl; rewrite Hscan; simpl.
    reflexivity.
Qed.

Lemma out_fourcc_zero_mismatch_witness :
  buffer_create (create_ok 0) no_F_setup 614400 1280
  = ([EV_CREATE_DUMB 640 480 32 614400 (Some 1);
      EV_PRIME_HANDLE_TO_FD 1 (Some 10);
      EV_AddFB2 640 480 YUYV 1 1280 (Some 100)],
     Some {| bo_handle := 1; fb_handle := 100; dbuf_fd := 10 |})
  /\ result_of (find_plane pingpong_world no_F_setup) = inl (-1, no_F_setup).
Proof.
  apply (out_fourcc_zero_mismatch pingpong_world no_F_setup (create_ok 0)
           614400 1280 1 10 100 [80; 81] [plane_80; plane_81]);
    try reflexivity.
  intros p [<- | [<- | []]]; vm_compute;
    intros [H | H]; try discriminate H; destruct H; try discriminate; auto.
Defined.

(** ** What each stage may do *)

Section Sat.

Context {P : event -> bool} {Q : outcome -> bool}.

Lemma sat_ret {A} (a : A) : sat P Q (ret a).
Proof. split; reflexivity || exact I. Qed.

Lemma sat_stop {A} o : Q o = true -> sat P Q (@stop A o).
Proof. intros H; split; [reflexivity | exact H]. Qed.

Lemma sat_call e : P e = true -> sat P Q (call e).
Proof. intros H; split; simpl; [now rewrite H | exact I]. Qed.

Lemma sat_BYE_ON cond site :
  Q (Aborted site) = true -> sat P Q (BYE_ON cond site).
Proof.
  intros H; destruct cond; [now apply sat_stop | apply sat_ret].
Qed.

Lemma sat_get_some {A} (o : option A) site :
  Q (Aborted site) = true -> sat P Q (get_some o site).
Proof.
  intros H; destruct o; [apply sat_ret | now apply sat_stop].
Qed.

Lemma sat_bind {A B} (m : M A) (k : A -> M B) :
  sat P Q m -> (forall a, sat P Q (k a)) -> sat P Q (bind m k).
Proof.
  intros [Ht Hr] Hk; unfold sat, bind, trace_of, result_of in *.
  destruct (snd m) as [a | o]; simpl.
  - destruct (Hk a) as [Hkt Hkr].
    rewrite forallb_app, Ht, Hkt; split; [reflexivity | exact Hkr].
  - split; assumption.
Qed.

End Sat.

Ltac sat_step :=
  match goal with
  | |- sat _ _ (bind _ _) => apply sat_bind; [| intros ?]
  | |- sat _ _ (call _) => apply sat_call; reflexivity
  | |- sat _ _ (ret _) => apply sat_ret
  | |- sat _ _ (BYE_ON _ _) => apply sat_BYE_ON; reflexivity
  | |- sat _ _ (get_some _ _) => apply sat_get_some; reflexivity
  | |- sat _ _ (stop _) => apply sat_stop; reflexivity
  | |- sat _ _ (if ?b then _ else _) => destruct b
  | |- sat _ _ (match ?o with Some _ => _ | None => _ end) => destruct o
  end.

Lemma negotiate_quiet opts wd :
  sat calm (stops_in Negotiation) (negotiate opts wd).
Proof.
  unfold negotiate; destruct (parse_args opts) as [r s].
  repeat sat_step.
Qed.

Lemma choose_connector_quiet wd ids :
  forall s, sat calm no_abort (choose_connector wd ids s).
Proof.
  induction ids as [| id ids IH]; intros s; simpl.
  - apply sat_ret.
  - sat_step; [sat_step |].
    destruct (w_connector wd id) as [con |]; [| sat_step].
    sat_step; [| apply IH].
    repeat sat_step.
Qed.

Lemma find_crtc_quiet wd s : sat calm no_abort (find_crtc wd s).
Proof.
  unfold find_crtc.
  sat_step; [sat_step |].
  destruct (w_resources wd) as [res |]; [| sat_step].
  sat_step; [sat_step |].
  sat_step.
  - sat_step; [| repeat sat_step].
    sat_step; [apply choose_connector_quiet | repeat sat_step].
  - repeat sat_step.
Qed.

Lemma scan_planes_quiet wd ids s :
  sat calm no_abort (scan_planes wd ids s).
Proof.
  induction ids as [| id ids IH]; simpl.
  - apply sat_ret.
  - sat_step; [sat_step |].
    destruct (w_plane wd id) as [p |]; [| sat_step].
    destruct (Z.land _ _ =? 0); [exact IH |].
    destruct (Nat.eqb _ _); [exact IH | sat_step].
Qed.

Lemma queue_all_quiet wd bs :
  forall i, sat calm queue_abort (queue_all wd bs i).
Proof.
  induction bs as [| b bs IH]; intros i; simpl.
  - apply sat_ret.
  - sat_step; [sat_step |]. sat_step; [sat_step | apply IH].
Qed.

Lemma loop_body_quiet s st k :
  sat quiet (stops_in Streaming) (loop_body s st k).
Proof. unfold loop_body; repeat sat_step. Qed.

Lemma handoff_quiet s wakes :
  forall st, sat quiet (stops_in Streaming) (handoff s st wakes).
Proof.
  induction wakes as [| k wakes IH]; intros st; simpl.
  - repeat sat_step.
  - sat_step; [sat_step |].
    destruct (poll_ret k >? 0); [| sat_step].
    sat_step; [apply loop_body_quiet | apply IH].
Qed.

Lemma sat_weaken {A} (P : event -> bool) (Q Q' : outcome -> bool) (m : M A) :
  (forall o, Q o = true -> Q' o = true) -> sat P Q m -> sat P Q' m.
Proof.
  intros HQ [Ht Hr]; split; [exact Ht |].
  destruct (result_of m); auto.
Qed.

Lemma find_plane_quiet wd s : sat calm no_abort (find_plane wd s).
Proof.
  unfold find_plane.
  sat_step; [sat_step |].
  destruct (w_plane_resources wd) as [ids |]; [| sat_step].
  sat_step; [apply scan_planes_quiet | repeat sat_step].
Qed.

Lemma no_abort_stage st o : no_abort o = true -> stops_in st o = true.
Proof. destruct o; simpl; congruence. Qed.

Lemma queue_abort_stage o : queue_abort o = true -> stops_in Streaming o = true.
Proof. destruct o as [| | [] |]; simpl; congruence. Qed.

Lemma resolve_quiet wd s : sat calm (stops_in Resolution) (resolve wd s).
Proof.
  unfold resolve.
  sat_step.
  { apply (sat_weaken _ no_abort); [apply no_abort_stage |].
    apply find_crtc_quiet. }
  sat_step; [sat_step |].
  sat_step.
  { apply (sat_weaken _ no_abort); [apply no_abort_stage |].
    apply find_plane_quiet. }
  repeat sat_step.
Qed.

Lemma calm_quiet {A} (Q : outcome -> bool) (m : M A) :
  sat calm Q m -> sat quiet Q m.
Proof.
  intros [Ht Hr]; split; [| exact Hr].
  rewrite forallb_forall in *; intros e He.
  specialize (Ht e He); unfold calm in Ht.
  now apply andb_prop in Ht.
Qed.

Lemma run_stream_quiet wd s bs :
  sat quiet (stops_in Streaming) (run_stream wd s bs).
Proof.
  unfold run_stream.
  sat_step.
  { apply (sat_weaken _ queue_abort); [apply queue_abort_stage |].
    apply calm_quiet, queue_all_quiet. }
  sat_step; [sat_step |].
  sat_step; [sat_step | apply handoff_quiet].
Qed.

(** ** The pool *)

Lemma releases_app t1 t2 : releases (t1 ++ t2) = releases t1 ++ releases t2.
Proof. apply filter_app. Qed.

Lemma allocations_app t1 t2 :
  allocations (t1 ++ t2) = (allocations t1 + allocations t2)%nat.
Proof. unfold allocations; now rewrite filter_app, length_app. Qed.

Lemma quiet_releases t : forallb quiet t = true -> releases t = [].
Proof.
  induction t as [| e t IH]; [reflexivity |]; simpl.
  intros H; apply andb_prop in H; destruct H as [He Ht].
  unfold quiet in He; apply andb_prop in He; destruct He as [_ He].
  destruct (is_release e); [discriminate | now apply IH].
Qed.

Lemma quiet_allocations t : forallb quiet t = true -> allocations t = O.
Proof.
  unfold allocations.
  induction t as [| e t IH]; [reflexivity |]; simpl.
  intros H; apply andb_prop in H; destruct H as [He Ht].
  unfold quiet in He; apply andb_prop in He; destruct He as [He _].
  destruct (is_allocation e); [discriminate | now apply IH].
Qed.

Lemma buffer_create_succeeds rep s size pitch :
  create_fails rep = false ->
  exists b,
    snd (buffer_create rep s size pitch) = Some b
    /\ releases (fst (buffer_create rep s size pitch)) = []
    /\ allocations (fst (buffer_create rep s size pitch)) = 1%nat.
Proof.
  unfold create_fails, buffer_create.
  destruct (cr_dumb rep) as [handle |]; [| discriminate].
  destruct (cr_prime rep) as [fd |]; [| discriminate].
  destruct (cr_addfb rep) as [fb |]; [| discriminate].
  intros _; eexists; repeat split.
Qed.

Lemma buffer_create_rolls_back rep s size pitch :
  create_fails rep = true ->
  snd (buffer_create rep s size pitch) = None
  /\ releases (fst (buffer_create rep s size pitch)) = rollback_of rep
  /\ allocations (fst (buffer_create rep s size pitch))
     = (if is_some (cr_dumb rep) then 1%nat else O).
Proof.
  unfold create_fails, buffer_create, rollback_of.
  destruct (cr_dumb rep) as [handle |]; [| intros _; repeat split].
  destruct (cr_prime rep) as [fd |]; [| intros _; repeat split].
  destruct (cr_addfb rep) as [fb |]; [discriminate | intros _; repeat split].
Qed.

Lemma buffer_create_some rep s size pitch b :
  snd (buffer_create rep s size pitch) = Some b -> create_fails rep = false.
Proof.
  intros H; destruct (create_fails rep) eqn:E; [| reflexivity].
  destruct (buffer_create_rolls_back rep s size pitch E) as [Hn _].
  congruence.
Qed.

Lemma create_buffers_stops_at wd s size pitch i :
  create_fails (w_create wd i) = true ->
  forall n from,
    (from <= i < from + n)%nat ->
    (forall j, (from <= j < i)%nat -> create_fails (w_create wd j) = false) ->
    create_buffers wd s size pitch n from
    = (creation_events wd s size pitch from (S i - from),
       inr (Aborted (BYE_create_buffer i))).
Proof.
  intros Hfail; induction n as [| n IH]; intros from Hrange Hok; [lia |].
  cbn [create_buffers]; unfold creation_events.
  destruct (Nat.eq_dec from i) as [-> | Hne].
  - destruct (buffer_create_rolls_back (w_create wd i) s size pitch Hfail)
      as [Hnone _].
    replace (S i - i)%nat with 1%nat by lia; cbn [seq flat_map].
    destruct (buffer_create (w_create wd i) s size pitch) as [t r].
    simpl in Hnone; subst r.
    unfold bind; simpl; now rewrite app_nil_r.
  - destruct (buffer_create_succeeds (w_create wd from) s size pitch)
      as [b [Hsome _]]; [apply Hok; lia |].
    replace (S i - from)%nat with (S (S i - S from)) by lia.
    cbn [seq flat_map].
    destruct (buffer_create (w_create wd from) s size pitch) as [t r].
    simpl in Hsome; subst r.
    rewrite (IH (S from)); [| lia | intros j Hj; apply Hok; lia].
    unfold bind, creation_events; simpl; reflexivity.
Qed.

Lemma creation_events_kept wd s size pitch n :
  forall from,
    (forall j, (from <= j < from + n)%nat ->
               create_fails (w_create wd j) = false) ->
    releases (creation_events wd s size pitch from n) = []
    /\ allocations (creation_events wd s size pitch from n) = n.
Proof.
  unfold creation_events.
  induction n as [| n IH]; intros from Hok; [split; reflexivity |].
  simpl; rewrite releases_app, allocations_app.
  destruct (buffer_create_succeeds (w_create wd from) s size pitch)
    as [b [_ [Hrel Hall]]]; [apply Hok; lia |].
  destruct (IH (S from)) as [Hr Ha]; [intros j Hj; apply Hok; lia |].
  rewrite Hrel, Hall, Hr, Ha; split; reflexivity.
Qed.

Lemma create_buffers_done wd s size pitch n :
  forall from bs,
    result_of (create_buffers wd s size pitch n from) = inl bs ->
    List.length bs = n
    /\ releases (trace_of (create_buffers wd s size pitch n from)) = []
    /\ allocations (trace_of (create_buffers wd s size pitch n from)) = n.
Proof.
  induction n as [| n IH]; intros from bs; simpl.
  - intros H; injection H as <-; repeat split.
  - destruct (buffer_create (w_create wd from) s size pitch) as [t r] eqn:E.
    destruct r as [b |]; [| discriminate].
    assert (create_fails (w_create wd from) = false) as Hok.
    { apply (buffer_create_some _ s size pitch b); now rewrite E. }
    destruct (buffer_create_succeeds (w_create wd from) s size pitch Hok)
      as [b' [_ [Hrel Hall]]].
    rewrite E in Hrel, Hall; simpl in Hrel, Hall.
    unfold bind at 1, result_of, trace_of; simpl.
    destruct (create_buffers wd s size pitch n (S from)) as [t' r'] eqn:E'.
    destruct r' as [bs' |]; [| discriminate].
    destruct (IH (S from) bs') as [Hlen [Hr Ha]]; [now rewrite E' |].
    rewrite E' in Hr, Ha; unfold trace_of in Hr, Ha; simpl in Hr, Ha.
    unfold bind; simpl.
    intros H; injection H as <-.
    rewrite app_nil_r, releases_app, allocations_app, Hrel, Hall, Hr, Ha.
    simpl; rewrite Hlen; repeat split.
Qed.

Lemma create_buffers_stage wd s size pitch n :
  forall from,
    sat (fun e => negb (failed_call e)) (stops_in Pool)
      (create_buffers wd s size pitch n from).
Proof.
  induction n as [| n IH]; intros from; simpl.
  - apply sat_ret.
  - apply sat_bind.
    + unfold buffer_create.
      destruct (cr_dumb (w_create wd from)); [| split; reflexivity].
      destruct (cr_prime (w_create wd from)); [| split; reflexivity].
      destruct (cr_addfb (w_create wd from)); split; simpl; auto.
    + intros b; apply sat_bind; [apply IH | intros; apply sat_ret].
Qed.

(** C3.  When the allocation, the export or the framebuffer registration
    of buffer [i] fails, the buffers before it having been created,
    [buffer_create] gives back what buffer [i] itself had got by then (the
    descriptor, then the allocation) and [main] aborts at "failed to
    create buffer [i]"; nothing of the buffers [0 .. i-1] is given back:
    the only releases of the run are those of buffer [i], and the
    allocations of the earlier buffers stay. *)
Theorem pool_failure_keeps_earlier_buffers (wd : world) (s : setup)
    (size pitch : Z) (i : nat) :
  (i < Z.to_nat (buffer_count s))%nat ->
  (forall j, (j < i)%nat -> create_fails (w_create wd j) = false) ->
  create_fails (w_create wd i) = true ->
  let run := create_pool wd s size pitch in
  result_of run = inr (Aborted (BYE_create_buffer i))
  /\ trace_of run = creation_events wd s size pitch 0 (S i)
  /\ releases (trace_of run) = rollback_of (w_create wd i)
  /\ allocations (trace_of run)
     = (i + if is_some (cr_dumb (w_create wd i)) then 1 else 0)%nat.
Proof.
  intros Hi Hok Hfail run; subst run; unfold create_pool.
  rewrite (create_buffers_stops_at wd s size pitch i Hfail
             (Z.to_nat (buffer_count s)) 0%nat);
    [| lia | intros j Hj; apply Hok; lia].
  rewrite Nat.sub_0_r; unfold result_of, trace_of; simpl fst; simpl snd.
  split; [reflexivity |]. split; [reflexivity |].
  unfold creation_events.
  rewrite seq_S, flat_map_app, releases_app, allocations_app; simpl.
  rewrite app_nil_r.
  destruct (creation_events_kept wd s size pitch i 0%nat) as [Hr Ha];
    [intros j Hj; apply Hok; lia |].
  unfold creation_events in Hr, Ha; rewrite Hr, Ha.
  destruct (buffer_create_rolls_back (w_create wd i) s size pitch Hfail)
    as [_ [Hrel Hall]].
  rewrite Hrel, Hall; split; reflexivity.
Qed.

Lemma pool_failure_keeps_earlier_buffers_witness :
  let run :=
    create_pool (demo_world create_second_fails [80; 81] []) demo_setup
      614400 1280 in
  result_of run = inr (Aborted (BYE_create_buffer 1))
  /\ trace_of run
     = creation_events (demo_world create_second_fails [80; 81] [])
         demo_setup 614400 1280 0 2
  /\ releases (trace_of run) = []
  /\ allocations (trace_of run) = 1%nat.
Proof.
  apply (pool_failure_keeps_earlier_buffers
           (demo_world create_second_fails [80; 81] []) demo_setup
           614400 1280 1).
  - vm_compute; lia.
  - intros j Hj; assert (j = 0%nat) as -> by lia; reflexivity.
  - reflexivity.
Defined.

(** At the demo display, with the second allocation failing, the loop stops
    at buffer 1 and the allocation, the descriptor and the framebuffer of
    buffer 0 are all left. *)
Lemma pool_not_all_or_nothing :
  ~ pool_all_or_nothing (demo_world create_second_fails [80; 81] [])
      demo_setup 614400 1280.
Proof.
  intros H; specialize (H 1%nat eq_refl).
  vm_compute in H; discriminate H.
Qed.

(** ** The stages of [main] in sequence *)

Lemma main_steps_cases opts wd :
  let tn := trace_of (negotiate opts wd) in
  (exists o, result_of (negotiate opts wd) = inr o
             /\ main_steps opts wd = (tn, inr o))
  \/ exists s size pitch,
       result_of (negotiate opts wd) = inl (s, size, pitch)
       /\ let tp := trace_of (create_pool wd s size pitch) in
          ((exists o, result_of (create_pool wd s size pitch) = inr o
                      /\ main_steps opts wd = (tn ++ tp, inr o))
           \/ exists bs,
                result_of (create_pool wd s size pitch) = inl bs
                /\ let tr := trace_of (resolve wd s) in
                   ((exists o, result_of (resolve wd s) = inr o
                               /\ main_steps opts wd
                                  = (tn ++ tp ++ tr, inr o))
                    \/ exists s',
                         result_of (resolve wd s) = inl s'
                         /\ main_steps opts wd
                            = (tn ++ tp ++ tr
                               ++ trace_of (run_stream wd s' bs),
                               result_of (run_stream wd s' bs)))).
Proof.
  cbv zeta; unfold main_steps.
  destruct (bind_cases (negotiate opts wd)
              (fun n => let '(s, size, pitch) := n in
                        bs <- create_pool wd s size pitch ;;
                        s' <- resolve wd s ;; run_stream wd s' bs))
    as [[[[s size] pitch] [Hn E]] | [o [Ho E]]]; rewrite E; clear E.
  2: { left; exists o; split; [exact Ho | reflexivity]. }
  right; exists s, size, pitch; split; [exact Hn |].
  destruct (bind_cases (create_pool wd s size pitch)
              (fun bs => s' <- resolve wd s ;; run_stream wd s' bs))
    as [[bs [Hp E]] | [o [Ho E]]]; rewrite E; clear E.
  2: { left; exists o; split; [exact Ho | reflexivity]. }
  right; exists bs; split; [exact Hp |].
  destruct (bind_cases (resolve wd s) (fun s' => run_stream wd s' bs))
    as [[s' [Hr E]] | [o [Ho E]]]; rewrite E; clear E.
  2: { left; exists o; split; [exact Ho | reflexivity]. }
  right; exists s'; split; [exact Hr | reflexivity].
Qed.

(** The setup that leaves [negotiate] has the buffer count of the command
    line, which the producer granted. *)
Lemma negotiate_buffer_count opts wd s size pitch :
  result_of (negotiate opts wd) = inl (s, size, pitch) ->
  buffer_count s = buffer_count (snd (parse_args opts))
  /\ exists granted,
       w_reqbufs wd = Some granted /\ buffer_count s <= granted.
Proof.
  unfold negotiate; destruct (parse_args opts) as [r s0]; cbn [snd].
  intros H.
  repeat match type of H with
         | result_of (bind (get_some (w_reqbufs wd) _) _) = inl _ =>
             apply bind_returns in H; destruct H as [granted [Hreq H]];
             apply get_some_returns in Hreq
         | result_of (bind (BYE_ON (_ <? buffer_count _) _) _) = inl _ =>
             apply bind_returns in H; destruct H as [? [Hle H]];
             apply BYE_ON_returns in Hle
         | result_of (bind _ _) = inl _ =>
             apply bind_returns in H; destruct H as [? [_ H]]
         end.
  unfold ret, result_of in H; cbn [snd] in H.
  injection H as <- _ _.
  split; [reflexivity |].
  exists granted; split; [exact Hreq |].
  apply Z.ltb_ge in Hle; exact Hle.
Qed.

Lemma find_plane_trace wd s :
  exists scan,
    trace_of (find_plane wd s)
    = EV_GetPlaneResources (is_some (w_plane_resources wd)) :: scan
    /\ forallb calm scan = true.
Proof.
  destruct (find_plane_quiet wd s) as [Hq _]; revert Hq.
  unfold find_plane; unfold bind at 1; simpl.
  intros Hq; eexists; split; [reflexivity | exact Hq].
Qed.

Lemma find_crtc_trace wd s :
  exists rest,
    trace_of (find_crtc wd s)
    = EV_GetResources (is_some (w_resources wd)) :: rest
    /\ forallb calm rest = true.
Proof.
  destruct (find_crtc_quiet wd s) as [Hq _]; revert Hq.
  unfold find_crtc; unfold bind at 1; simpl.
  intros Hq; eexists; split; [reflexivity | exact Hq].
Qed.

Lemma resolve_no_plane wd s :
  result_of (resolve wd s) = inr (Aborted BYE_find_compatible_plane) ->
  exists crtc scan,
    trace_of (resolve wd s)
    = (EV_GetResources (is_some (w_resources wd)) :: crtc)
      ++ EV_GetPlaneResources (is_some (w_plane_resources wd)) :: scan
    /\ forallb calm crtc = true /\ forallb calm scan = true.
Proof.
  unfold resolve; intros H.
  destruct (find_crtc_quiet wd s) as [_ Hrc].
  destruct (find_crtc_trace wd s) as [crtc [Hcrtc Hqc]].
  apply bind_stops in H; destruct H as [[H _] | [rc [_ [H ->]]]].
  { rewrite H in Hrc; discriminate Hrc. }
  apply bind_stops in H; destruct H as [[H _] | [[] [_ [H ->]]]].
  { apply BYE_ON_stops in H; discriminate H. }
  destruct (find_plane_quiet wd (snd rc)) as [_ Hrp].
  destruct (find_plane_trace wd (snd rc)) as [scan [Hscan Hqs]].
  apply bind_stops in H; destruct H as [[H _] | [rp [_ [H ->]]]].
  { rewrite H in Hrp; discriminate Hrp. }
  apply bind_stops in H; destruct H as [[_ ->] | [[] [_ [H _]]]].
  2: { discriminate H. }
  rewrite !BYE_ON_trace, Hscan, Hcrtc; simpl; rewrite app_nil_r.
  exists crtc, scan; repeat split; assumption.
Qed.

Lemma main_outcome_abort opts wd b :
  snd (main opts wd) = Aborted b ->
  result_of (main_steps opts wd) = inr (Aborted b).
Proof.
  unfold main; simpl.
  destruct (result_of (main_steps opts wd));
    [intros H; discriminate H | now intros ->].
Qed.

(** The run that ends because no plane takes the layout: the negotiation,
    the pool, the calls of [find_crtc], then the call that lists the
    planes and the planes looked at. *)
Lemma no_plane_run (opts : list (ascii * string)) (wd : world) :
  snd (main opts wd) = Aborted BYE_find_compatible_plane ->
  exists pool crtc scan,
    fst (main opts wd)
    = trace_of (negotiate opts wd) ++ pool
      ++ (EV_GetResources (is_some (w_resources wd)) :: crtc)
      ++ EV_GetPlaneResources (is_some (w_plane_resources wd)) :: scan
    /\ allocations (trace_of (negotiate opts wd)) = O
    /\ allocations pool = Z.to_nat (buffer_count (snd (parse_args opts)))
    /\ allocations crtc = O
    /\ allocations scan = O
    /\ releases (fst (main opts wd)) = [].
Proof.
  intros Hout; apply main_outcome_abort in Hout.
  unfold main; cbn [fst snd].
  destruct (negotiate_quiet opts wd) as [Hqn Hrn].
  destruct (main_steps_cases opts wd)
    as [[o [Ho E]] | [s [size [pitch [Hn [[o [Ho E]] | [bs [Hp C]]]]]]]].
  { rewrite E, result_of_pair in Hout; injection Hout as ->.
    rewrite Ho in Hrn; discriminate Hrn. }
  { rewrite E, result_of_pair in Hout; injection Hout as ->.
    destruct (create_buffers_stage wd s size pitch
                (Z.to_nat (buffer_count s)) 0%nat) as [_ Hrp].
    unfold create_pool in Ho; rewrite Ho in Hrp; discriminate Hrp. }
  destruct (create_buffers_done wd s size pitch _ _ _ Hp)
    as [_ [Hrel Hall]]; fold (create_pool wd s size pitch) in Hrel, Hall.
  destruct (negotiate_buffer_count opts wd s size pitch Hn) as [Hcount _].
  destruct C as [[o [Ho E]] | [s' [Hr E]]].
  - rewrite E, result_of_pair in Hout; injection Hout as ->.
    rewrite E, !trace_of_pair.
    destruct (resolve_no_plane wd s Ho) as [crtc [scan [Ht [Hqc Hqs]]]].
    rewrite Ht.
    exists (trace_of (create_pool wd s size pitch)), crtc, scan.
    assert (forallb quiet (trace_of (negotiate opts wd)) = true) as Hqn'.
    { now destruct (calm_quiet _ _ (negotiate_quiet opts wd)). }
    assert (forall t, forallb calm t = true -> forallb quiet t = true)
      as Hcq.
    { intros t Ht'; rewrite forallb_forall in *; intros e He.
      specialize (Ht' e He); unfold calm in Ht'.
      now apply andb_prop in Ht'. }
    split; [reflexivity |].
    split; [now apply quiet_allocations |].
    split; [now rewrite Hall, Hcount |].
    split; [now apply quiet_allocations, Hcq |].
    split; [now apply quiet_allocations, Hcq |].
    rewrite !releases_app, Hrel, (quiet_releases _ Hqn').
    change (releases (EV_GetResources (is_some (w_resources wd)) :: crtc))
      with (releases crtc).
    rewrite (quiet_releases crtc (Hcq _ Hqc)); simpl.
    apply (quiet_releases scan (Hcq _ Hqs)).
  - rewrite E, result_of_pair in Hout.
    destruct (run_stream_quiet wd s' bs) as [_ Hrs].
    rewrite Hout in Hrs; discriminate Hrs.
Qed.

(** *** The calls of each stage *)

Lemma stage_eqb_eq a b : stage_eqb a b = true -> a = b.
Proof. destruct a, b; simpl; congruence. Qed.

Lemma negotiate_stage opts wd :
  sat (in_stage Negotiation) any_end (negotiate opts wd).
Proof.
  unfold negotiate; destruct (parse_args opts) as [r s].
  repeat sat_step.
Qed.

Lemma create_buffers_in_pool wd s size pitch n :
  forall from,
    sat (in_stage Pool) any_end (create_buffers wd s size pitch n from).
Proof.
  induction n as [| n IH]; intros from; simpl.
  - apply sat_ret.
  - apply sat_bind.
    + unfold buffer_create.
      destruct (cr_dumb (w_create wd from)); [| split; reflexivity].
      destruct (cr_prime (w_create wd from)); [| split; reflexivity].
      destruct (cr_addfb (w_create wd from)); split; simpl; auto.
    + intros b; apply sat_bind; [apply IH | intros; apply sat_ret].
Qed.

Lemma choose_connector_stage wd ids :
  forall s, sat (in_stage Resolution) any_end (choose_connector wd ids s).
Proof.
  induction ids as [| id ids IH]; intros s; simpl.
  - apply sat_ret.
  - sat_step; [sat_step |].
    destruct (w_connector wd id) as [con |]; [| sat_step].
    sat_step; [| apply IH].
    repeat sat_step.
Qed.

Lemma find_crtc_stage wd s :
  sat (in_stage Resolution) any_end (find_crtc wd s).
Proof.
  unfold find_crtc.
  sat_step; [sat_step |].
  destruct (w_resources wd) as [res |]; [| sat_step].
  sat_step; [sat_step |].
  sat_step.
  - sat_step; [| repeat sat_step].
    sat_step; [apply choose_connector_stage | repeat sat_step].
  - repeat sat_step.
Qed.

Lemma scan_planes_stage wd ids s :
  sat (in_stage Resolution) any_end (scan_planes wd ids s).
Proof.
  induction ids as [| id ids IH]; simpl.
  - apply sat_ret.
  - sat_step; [sat_step |].
    destruct (w_plane wd id) as [p |]; [| sat_step].
    destruct (Z.land _ _ =? 0); [exact IH |].
    destruct (Nat.eqb _ _); [exact IH | sat_step].
Qed.

Lemma find_plane_stage wd s :
  sat (in_stage Resolution) any_end (find_plane wd s).
Proof.
  unfold find_plane.
  sat_step; [sat_step |].
  destruct (w_plane_resources wd) as [ids |]; [| sat_step].
  sat_step; [apply scan_planes_stage | repeat sat_step].
Qed.

Lemma resolve_stage wd s : sat (in_stage Resolution) any_end (resolve wd s).
Proof.
  unfold resolve.
  sat_step; [apply find_crtc_stage |].
  sat_step; [sat_step |].
  sat_step; [apply find_plane_stage |].
  repeat sat_step.
Qed.

Lemma queue_all_stage wd bs :
  forall i, sat (in_stage Streaming) any_end (queue_all wd bs i).
Proof.
  induction bs as [| b bs IH]; intros i; simpl.
  - apply sat_ret.
  - sat_step; [sat_step |]. sat_step; [sat_step | apply IH].
Qed.

Lemma loop_body_stage s st k :
  sat (in_stage Streaming) any_end (loop_body s st k).
Proof. unfold loop_body; repeat sat_step. Qed.

Lemma handoff_stage s wakes :
  forall st, sat (in_stage Streaming) any_end (handoff s st wakes).
Proof.
  induction wakes as [| k wakes IH]; intros st; simpl.
  - repeat sat_step.
  - sat_step; [sat_step |].
    destruct (poll_ret k >? 0); [| sat_step].
    sat_step; [apply loop_body_stage | apply IH].
Qed.

Lemma run_stream_stage wd s bs :
  sat (in_stage Streaming) any_end (run_stream wd s bs).
Proof.
  unfold run_stream.
  sat_step; [apply queue_all_stage |].
  sat_step; [sat_step |].
  sat_step; [sat_step | apply handoff_stage].
Qed.

(** *** Blocks of calls in the order of the stages *)

Lemma in_stage_rank X Y l :
  (stage_rank X <= stage_rank Y)%nat ->
  forallb (in_stage Y) l = true ->
  Forall (fun e => (stage_rank X <= stage_rank (event_stage e))%nat) l.
Proof.
  intros Hle Hl; apply Forall_forall; intros e He.
  rewrite forallb_forall in Hl.
  now rewrite (stage_eqb_eq _ _ (Hl e He)).
Qed.

Lemma stage_block_sorted X l rest :
  forallb (in_stage X) l = true ->
  Forall (fun e => (stage_rank X <= stage_rank (event_stage e))%nat) rest ->
  StronglySorted not_after rest ->
  StronglySorted not_after (l ++ rest).
Proof.
  intros Hl Hrest Hs; induction l as [| a l IH]; simpl; [exact Hs |].
  simpl in Hl; apply andb_prop in Hl; destruct Hl as [Ha Hl].
  apply stage_eqb_eq in Ha.
  constructor; [now apply IH |].
  apply Forall_app; split.
  - apply Forall_forall; intros e He.
    rewrite forallb_forall in Hl.
    unfold not_after; rewrite Ha, (stage_eqb_eq _ _ (Hl e He)).
    apply le_n.
  - apply Forall_forall; intros e He.
    rewrite Forall_forall in Hrest.
    unfold not_after; rewrite Ha; now apply Hrest.
Qed.

(** A call that is not of the stage of a block lies behind the block. *)
Lemma split_after_block (P : event -> bool) l1 :
  forall l2 pre e post,
    forallb P l1 = true -> P e = false ->
    l1 ++ l2 = pre ++ e :: post ->
    exists pre', pre = l1 ++ pre' /\ l2 = pre' ++ e :: post.
Proof.
  induction l1 as [| a l1 IH]; intros l2 pre e post Hl He E; simpl in *.
  - now exists pre.
  - apply andb_prop in Hl; destruct Hl as [Ha Hl].
    destruct pre as [| p pre]; simpl in E; injection E as -> E.
    + congruence.
    + destruct (IH _ _ _ _ Hl He E) as [pre' [-> ->]].
      now exists pre'.
Qed.

Lemma quiet_prefix pre rest :
  forallb quiet (pre ++ rest) = true -> forallb quiet pre = true.
Proof.
  rewrite forallb_app; intros H; now apply andb_prop in H.
Qed.

(** *** The negotiation is over when [VIDIOC_REQBUFS] has granted the
    buffers *)

Lemma bind_in_later {A B} (m : M A) (k : A -> M B) a e :
  result_of m = inl a ->
  In e (trace_of (k a)) -> In e (trace_of (bind m k)).
Proof.
  unfold bind, result_of, trace_of; intros -> H; simpl.
  apply in_or_app; now right.
Qed.

Lemma negotiate_asks_buffers opts wd s size pitch :
  result_of (negotiate opts wd) = inl (s, size, pitch) ->
  In (EV_REQBUFS (buffer_count (snd (parse_args opts))) (w_reqbufs wd))
    (trace_of (negotiate opts wd)).
Proof.
  unfold negotiate; destruct (parse_args opts) as [r s0]; cbn [snd].
  intros H.
  repeat match type of H with
         | result_of (bind (call (EV_REQBUFS _ _)) _) = inl _ =>
             fail 1
         | result_of (bind ?m ?k) = inl _ =>
             let a := fresh "a" in
             let Hm := fresh "Hm" in
             apply bind_returns in H; destruct H as [a [Hm H]];
             apply (bind_in_later m k a _ Hm); cbv beta
         end.
  rewrite bind_call, trace_of_pair; now left.
Qed.

(** The trace of [main] by stage. *)
Lemma main_blocks (opts : list (ascii * string)) (wd : world) :
  exists tn tp tr ts,
    fst (main opts wd) = tn ++ tp ++ tr ++ ts
    /\ forallb (in_stage Negotiation) tn = true
    /\ forallb (in_stage Pool) tp = true
    /\ forallb (in_stage Resolution) tr = true
    /\ forallb (in_stage Streaming) ts = true
    /\ forallb quiet tn = true
    /\ forallb quiet (tr ++ ts) = true
    /\ (tp ++ tr ++ ts <> [] ->
        exists granted,
          In (EV_REQBUFS (buffer_count (snd (parse_args opts)))
                (Some granted)) tn
          /\ buffer_count (snd (parse_args opts)) <= granted)
    /\ (tr ++ ts <> [] ->
        allocations tp = Z.to_nat (buffer_count (snd (parse_args opts)))
        /\ releases tp = []).
Proof.
  unfold main; cbn [fst].
  destruct (negotiate_stage opts wd) as [Hsn _].
  destruct (calm_quiet _ _ (negotiate_quiet opts wd)) as [Hqn _].
  destruct (main_steps_cases opts wd)
    as [[o [Ho E]] | [s [size [pitch [Hn [[o [Ho E]] | [bs [Hp C]]]]]]]].
  { exists (trace_of (negotiate opts wd)), [], [], [].
    rewrite E, trace_of_pair; cbn [app]; rewrite app_nil_r.
    do 7 (split; [first [reflexivity | assumption] |]).
    split; intros Hne; now elim Hne. }
  all: destruct (negotiate_buffer_count opts wd s size pitch Hn)
         as [Hcount [granted [Hg Hle]]];
       pose proof (negotiate_asks_buffers opts wd s size pitch Hn) as Hask;
       rewrite Hg in Hask; rewrite Hcount in Hle;
       destruct (create_buffers_in_pool wd s size pitch
                   (Z.to_nat (buffer_count s)) 0%nat) as [Hsp _];
       fold (create_pool wd s size pitch) in Hsp.
  { exists (trace_of (negotiate opts wd)),
      (trace_of (create_pool wd s size pitch)), [], [].
    rewrite E, trace_of_pair; cbn [app]; rewrite app_nil_r.
    do 7 (split; [first [reflexivity | assumption] |]).
    split; [intros _; now exists granted | intros Hne; now elim Hne]. }
  destruct (create_buffers_done wd s size pitch _ _ _ Hp)
    as [_ [Hrel Hall]]; fold (create_pool wd s size pitch) in Hrel, Hall.
  rewrite Hcount in Hall.
  destruct (resolve_stage wd s) as [Hsr _].
  destruct (calm_quiet _ _ (resolve_quiet wd s)) as [Hqr _].
  destruct C as [[o [Ho E]] | [s' [Hr E]]].
  { exists (trace_of (negotiate opts wd)),
      (trace_of (create_pool wd s size pitch)),
      (trace_of (resolve wd s)), [].
    rewrite E, trace_of_pair, !app_nil_r.
    do 7 (split; [first [reflexivity | assumption] |]).
    split; [intros _; now exists granted | intros _; now split]. }
  destruct (run_stream_stage wd s' bs) as [Hss _].
  destruct (run_stream_quiet wd s' bs) as [Hqs _].
  exists (trace_of (negotiate opts wd)),
    (trace_of (create_pool wd s size pitch)),
    (trace_of (resolve wd s)), (trace_of (run_stream wd s' bs)).
  rewrite E, trace_of_pair.
  do 6 (split; [first [reflexivity | assumption] |]).
  split; [rewrite forallb_app, Hqr, Hqs; reflexivity |].
  split; [intros _; now exists granted | intros _; now split].
Qed.

(** C4.  The calls of every run of [main] come in the order of its
    stages: negotiation with the producer, then the pool, then output and
    plane, then streaming.  The producer has granted the buffer count
    before the first call of the pool; and output and plane are resolved
    after the pool, not before it: every call of [find_crtc] and of
    [find_plane] comes when all [buffer_count] allocations have been
    made, none of them given back.  So the session that ends because no
    plane takes the layout has listed the planes with every allocation
    made, and ends with all of them made and none given back. *)
Theorem pool_precedes_resolution (opts : list (ascii * string))
    (wd : world) :
  let run := fst (main opts wd) in
  let count := buffer_count (snd (parse_args opts)) in
  StronglySorted not_after run
  /\ (forall pre e post,
        run = pre ++ e :: post -> event_stage e = Pool ->
        exists granted,
          In (EV_REQBUFS count (Some granted)) pre /\ count <= granted)
  /\ (forall pre e post,
        run = pre ++ e :: post -> event_stage e = Resolution ->
        allocations pre = Z.to_nat count /\ releases pre = [])
  /\ (snd (main opts wd) = Aborted BYE_find_compatible_plane ->
      In (EV_GetResources (is_some (w_resources wd))) run
      /\ In (EV_GetPlaneResources (is_some (w_plane_resources wd))) run
      /\ allocations run = Z.to_nat count
      /\ releases run = []).
Proof.
  cbv zeta.
  destruct (main_blocks opts wd)
    as [tn [tp [tr [ts [E [Hn [Hp [Hr [Hs [Hqn [Hq [Hreq Hall]]]]]]]]]]]].
  split; [| split; [| split]].
  - rewrite E.
    apply (stage_block_sorted Negotiation); [exact Hn | |].
    { rewrite !Forall_app; repeat split;
        [apply (in_stage_rank _ Pool) | apply (in_stage_rank _ Resolution)
         | apply (in_stage_rank _ Streaming)];
        simpl; auto. }
    apply (stage_block_sorted Pool); [exact Hp | |].
    { rewrite !Forall_app; repeat split;
        [apply (in_stage_rank _ Resolution)
         | apply (in_stage_rank _ Streaming)];
        simpl; auto. }
    apply (stage_block_sorted Resolution); [exact Hr | |].
    { apply (in_stage_rank _ Streaming); simpl; auto. }
    rewrite <- (app_nil_r ts).
    apply (stage_block_sorted Streaming); [exact Hs | | ]; constructor.
  - intros pre e post Hrun He; rewrite E in Hrun.
    destruct (split_after_block (in_stage Negotiation) tn
                (tp ++ tr ++ ts) pre e post Hn)
      as [pre' [-> Hrest]];
      [unfold in_stage; now rewrite He | exact Hrun |].
    destruct Hreq as [granted [Hin Hle]].
    { rewrite Hrest; now destruct pre'. }
    exists granted; split; [apply in_or_app; now left | exact Hle].
  - intros pre e post Hrun He; rewrite E in Hrun.
    destruct (split_after_block (in_stage Negotiation) tn
                (tp ++ tr ++ ts) pre e post Hn)
      as [pre1 [-> Hrest1]];
      [unfold in_stage; now rewrite He | exact Hrun |].
    destruct (split_after_block (in_stage Pool) tp (tr ++ ts) pre1 e post Hp)
      as [pre2 [-> Hrest2]];
      [unfold in_stage; now rewrite He | exact Hrest1 |].
    destruct Hall as [Ha Hrel].
    { rewrite Hrest2; now destruct pre2. }
    rewrite Hrest2 in Hq; apply quiet_prefix in Hq.
    rewrite !allocations_app, !releases_app, Ha, Hrel.
    rewrite (quiet_allocations _ Hqn), (quiet_allocations _ Hq).
    rewrite (quiet_releases _ Hqn), (quiet_releases _ Hq).
    split; [lia | reflexivity].
  - intros Hout.
    destruct (no_plane_run opts wd Hout)
      as [pool [crtc [scan [Ht [Han [Hap [Hac [Has Hrel]]]]]]]].
    split; [| split; [| split]].
    + rewrite Ht; apply in_or_app; right; apply in_or_app; right.
      now left.
    + rewrite Ht; apply in_or_app; right; apply in_or_app; right.
      apply in_or_app; right; now left.
    + rewrite Ht, !allocations_app, Han, Hap.
      change (allocations (EV_GetResources (is_some (w_resources wd))
                             :: crtc)) with (allocations crtc).
      change (allocations
                (EV_GetPlaneResources (is_some (w_plane_resources wd))
                   :: scan)) with (allocations scan).
      rewrite Hac, Has; lia.
    + exact Hrel.
Qed.

Lemma pool_precedes_resolution_witness :
  StronglySorted not_after (fst (main (demo_opts "2") nv12_only_world))
  /\ (exists granted,
        In (EV_REQBUFS 2 (Some granted))
          (firstn 7 (fst (main (demo_opts "2") nv12_only_world)))
        /\ 2 <= granted)
  /\ (allocations (firstn 13 (fst (main (demo_opts "2") nv12_only_world)))
      = 2%nat
      /\ releases (firstn 13 (fst (main (demo_opts "2") nv12_only_world)))
         = [])
  /\ (In (EV_GetResources true) (fst (main (demo_opts "2") nv12_only_world))
      /\ In (EV_GetPlaneResources true)
           (fst (main (demo_opts "2") nv12_only_world))
      /\ allocations (fst (main (demo_opts "2") nv12_only_world)) = 2%nat
      /\ releases (fst (main (demo_opts "2") nv12_only_world)) = []).
Proof.
  pose proof (pool_precedes_resolution (demo_opts "2") nv12_only_world) as H.
  cbv zeta in H.
  assert (buffer_count (snd (parse_args (demo_opts "2"))) = 2) as Hcount
    by (vm_compute; reflexivity).
  rewrite Hcount in H.
  let t := eval vm_compute in (fst (main (demo_opts "2") nv12_only_world)) in
  assert (fst (main (demo_opts "2") nv12_only_world) = t) as Hrun
    by (vm_compute; reflexivity).
  rewrite Hrun in H |- *.
  destruct H as [H1 [H2 [H3 H4]]].
  split; [exact H1 |].
  split.
  { refine (H2 _ (EV_CREATE_DUMB 640 480 32 614400 (Some 1)) _ _ _);
      reflexivity. }
  split.
  { refine (H3 _ (EV_GetResources true) _ _ _); reflexivity. }
  apply H4; vm_compute; reflexivity.
Defined.

(** At a display whose only plane takes NV12, the session asked for YUYV
    ends for want of a plane with two allocations made. *)
Lemma allocation_precedes_plane_resolution :
  ~ resolves_before_allocating (demo_opts "2") nv12_only_world.
Proof.
  intros H; specialize (H eq_refl).
  vm_compute in H; discriminate H.
Qed.

(** ** Faults of the streaming loop *)

Lemma loop_body_failed_call s st k e :
  In e (trace_of (loop_body s st k)) ->
  failed_call e = true ->
  (result_of (loop_body s st k) = inr (Aborted BYE_DQBUF)
   \/ result_of (loop_body s st k) = inr (Aborted BYE_SetPlane))
  /\ exists before, trace_of (loop_body s st k) = before ++ [e].
Proof.
  unfold loop_body, bind, BYE_ON, call, ret, stop, trace_of, result_of.
  destruct (dqbuf_reply k) as [index |]; simpl.
  - destruct (buffer_at (stream_buffer st) index) as [b |]; simpl.
    + destruct (setplane_reply k); simpl.
      * destruct (current_buffer st =? -1); simpl.
        { intros [<- | [<- | []]] Hf; discriminate Hf. }
        destruct (buffer_at (stream_buffer st) (current_buffer st));
          simpl; [destruct (qbuf_reply k); simpl |];
          intros Hin Hf;
          repeat (destruct Hin as [<- | Hin]; [discriminate Hf |]);
          contradiction.
      * intros [<- | [<- | []]] Hf; [discriminate Hf |].
        split; [now right | now exists [EV_DQBUF (Some index)]].
    + intros [<- | []] Hf; discriminate Hf.
  - intros [<- | []] _; split; [now left | now exists []].
Qed.

Lemma handoff_failed_call s wakes e :
  forall st,
    In e (trace_of (handoff s st wakes)) ->
    failed_call e = true ->
    (result_of (handoff s st wakes) = inr (Aborted BYE_DQBUF)
     \/ result_of (handoff s st wakes) = inr (Aborted BYE_SetPlane))
    /\ exists before, trace_of (handoff s st wakes) = before ++ [e].
Proof.
  induction wakes as [| k wakes IH]; intros st; cbn [handoff];
    rewrite bind_call, trace_of_pair, result_of_pair.
  - intros [<- | []] Hf; discriminate Hf.
  - destruct (poll_ret k >? 0).
    2: { intros [<- | []] Hf; discriminate Hf. }
    destruct (bind_cases (loop_body s st k) (fun st' => handoff s st' wakes))
      as [[st' [Hb E]] | [o [Hb E]]];
      rewrite E, trace_of_pair, result_of_pair; clear E.
    + intros [<- | Hin] Hf; [discriminate Hf |].
      apply in_app_or in Hin; destruct Hin as [Hin | Hin].
      * destruct (loop_body_failed_call s st k e Hin Hf) as [[H | H] _];
          rewrite H in Hb; discriminate Hb.
      * destruct (IH st' Hin Hf) as [Hres [before Hbefore]].
        split; [exact Hres |].
        exists (EV_poll (poll_ret k) :: trace_of (loop_body s st k)
                ++ before).
        rewrite Hbefore; simpl; now rewrite app_assoc.
    + intros [<- | Hin] Hf; [discriminate Hf |].
      destruct (loop_body_failed_call s st k e Hin Hf)
        as [Hres [before Hbefore]].
      split; [rewrite <- Hb; exact Hres |].
      exists (EV_poll (poll_ret k) :: before).
      rewrite Hbefore; reflexivity.
Qed.

Lemma calm_no_failed_call t e :
  forallb calm t = true -> In e t -> failed_call e = false.
Proof.
  intros Ht He; rewrite forallb_forall in Ht.
  specialize (Ht e He); unfold calm in Ht.
  apply andb_prop in Ht; destruct Ht as [_ Ht].
  now destruct (failed_call e).
Qed.

Lemma run_stream_failed_call wd s bs e :
  In e (trace_of (run_stream wd s bs)) ->
  failed_call e = true ->
  (result_of (run_stream wd s bs) = inr (Aborted BYE_DQBUF)
   \/ result_of (run_stream wd s bs) = inr (Aborted BYE_SetPlane))
  /\ exists before, trace_of (run_stream wd s bs) = before ++ [e].
Proof.
  unfold run_stream.
  destruct (queue_all_quiet wd bs 0%nat) as [Hq _].
  destruct (bind_cases (queue_all wd bs 0)
              (fun _ => call (EV_STREAMON (w_streamon wd)) ;;;
                        BYE_ON (negb (w_streamon wd)) BYE_STREAMON ;;;
                        handoff s
                          {| v4lfd := w_open wd; current_buffer := -1;
                             stream_buffer := bs |} (w_wakes wd)))
    as [[[] [_ E]] | [o [_ E]]];
    rewrite E, trace_of_pair, result_of_pair; clear E.
  2: { intros Hin Hf.
       rewrite (calm_no_failed_call _ e Hq Hin) in Hf; discriminate Hf. }
  rewrite bind_call, trace_of_pair, result_of_pair.
  destruct (w_streamon wd); cbn [negb].
  - rewrite (bind_inl (BYE_ON false BYE_STREAMON) _ tt eq_refl).
    rewrite trace_of_pair, result_of_pair, BYE_ON_trace; cbn [app].
    intros Hin Hf; apply in_app_or in Hin; destruct Hin as [Hin | Hin].
    { rewrite (calm_no_failed_call _ e Hq Hin) in Hf; discriminate Hf. }
    destruct Hin as [<- | Hin]; [discriminate Hf |].
    destruct (handoff_failed_call s (w_wakes wd) e _ Hin Hf)
      as [Hres [before Hbefore]].
    split; [exact Hres |].
    exists (trace_of (queue_all wd bs 0) ++ EV_STREAMON true :: before).
    rewrite Hbefore, <- app_assoc; reflexivity.
  - rewrite (bind_inr (BYE_ON true BYE_STREAMON) _ _ eq_refl).
    rewrite trace_of_pair, BYE_ON_trace.
    intros Hin Hf; apply in_app_or in Hin; destruct Hin as [Hin | Hin].
    { rewrite (calm_no_failed_call _ e Hq Hin) in Hf; discriminate Hf. }
    destruct Hin as [<- | []]; discriminate Hf.
Qed.

Lemma calm_is_quiet t : forallb calm t = true -> forallb quiet t = true.
Proof.
  intros Ht; rewrite forallb_forall in *; intros e He.
  specialize (Ht e He); unfold calm in Ht.
  now apply andb_prop in Ht.
Qed.

Lemma pool_no_failed_call wd s size pitch e :
  In e (trace_of (create_pool wd s size pitch)) -> failed_call e = false.
Proof.
  destruct (create_buffers_stage wd s size pitch
              (Z.to_nat (buffer_count s)) 0%nat) as [Ht _].
  intros He; rewrite forallb_forall in Ht.
  specialize (Ht e He); now destruct (failed_call e).
Qed.

(** C7.  When a dequeue or a present of the streaming loop fails, the
    process aborts there: the failed call is the last call of the run,
    nothing is tried again.  No pool teardown follows: the run holds no
    [close] and no [DRM_IOCTL_MODE_DESTROY_DUMB], and all [buffer_count]
    allocations it made are left to the exit of the process. *)
Theorem loop_fault_aborts_without_teardown (opts : list (ascii * string))
    (wd : world) (e : event) :
  In e (fst (main opts wd)) ->
  failed_call e = true ->
  (snd (main opts wd) = Aborted BYE_DQBUF
   \/ snd (main opts wd) = Aborted BYE_SetPlane)
  /\ (exists before, fst (main opts wd) = before ++ [e])
  /\ releases (fst (main opts wd)) = []
  /\ allocations (fst (main opts wd))
     = Z.to_nat (buffer_count (snd (parse_args opts))).
Proof.
  unfold main; simpl fst; simpl snd; unfold trace_of at 1 2 3 4.
  destruct (negotiate_quiet opts wd) as [Hqn _].
  destruct (main_steps_cases opts wd)
    as [[o [Ho E]] | [s [size [pitch [Hn [[o [Ho E]] | [bs [Hp C]]]]]]]].
  { rewrite E; simpl; intros Hin Hf.
    rewrite (calm_no_failed_call _ e Hqn Hin) in Hf; discriminate Hf. }
  { rewrite E; simpl; intros Hin Hf.
    apply in_app_or in Hin; destruct Hin as [Hin | Hin].
    - rewrite (calm_no_failed_call _ e Hqn Hin) in Hf; discriminate Hf.
    - rewrite (pool_no_failed_call _ _ _ _ e Hin) in Hf; discriminate Hf. }
  destruct (resolve_quiet wd s) as [Hqr _].
  destruct (create_buffers_done wd s size pitch _ _ _ Hp)
    as [_ [Hrel Hall]]; fold (create_pool wd s size pitch) in Hrel, Hall.
  destruct (negotiate_buffer_count opts wd s size pitch Hn) as [Hcount _].
  assert (forall t, In e (trace_of (negotiate opts wd)
                          ++ trace_of (create_pool wd s size pitch)
                          ++ trace_of (resolve wd s) ++ t) ->
                    failed_call e = true -> In e t) as Hlate.
  { intros t Hin Hf.
    apply in_app_or in Hin; destruct Hin as [Hin | Hin].
    { rewrite (calm_no_failed_call _ e Hqn Hin) in Hf; discriminate Hf. }
    apply in_app_or in Hin; destruct Hin as [Hin | Hin].
    { rewrite (pool_no_failed_call _ _ _ _ e Hin) in Hf; discriminate Hf. }
    apply in_app_or in Hin; destruct Hin as [Hin | Hin]; [| exact Hin].
    rewrite (calm_no_failed_call _ e Hqr Hin) in Hf; discriminate Hf. }
  destruct C as [[o [Ho E]] | [s' [Hr E]]]; rewrite E; simpl fst; simpl snd.
  - intros Hin Hf.
    rewrite <- (app_nil_r (trace_of (resolve wd s))) in Hin.
    destruct (Hlate [] Hin Hf).
  - intros Hin Hf; specialize (Hlate _ Hin Hf).
    destruct (run_stream_failed_call wd s' bs e Hlate Hf)
      as [Hres [before Hbefore]].
    destruct (run_stream_quiet wd s' bs) as [Hqs _].
    split.
    { destruct Hres as [H | H]; rewrite H; [now left | now right]. }
    split.
    { exists (trace_of (negotiate opts wd)
              ++ trace_of (create_pool wd s size pitch)
              ++ trace_of (resolve wd s) ++ before).
      rewrite Hbefore, <- !app_assoc; reflexivity. }
    split.
    + rewrite !releases_app, Hrel.
      rewrite (quiet_releases _ (calm_is_quiet _ Hqn)).
      rewrite (quiet_releases _ (calm_is_quiet _ Hqr)).
      rewrite (quiet_releases _ Hqs); reflexivity.
    + rewrite !allocations_app, Hall.
      rewrite (quiet_allocations _ (calm_is_quiet _ Hqn)).
      rewrite (quiet_allocations _ (calm_is_quiet _ Hqr)).
      rewrite (quiet_allocations _ Hqs), Hcount; lia.
Qed.

Lemma loop_fault_aborts_without_teardown_witness :
  (snd (main (demo_opts "2") fifth_frame_world) = Aborted BYE_DQBUF
   \/ snd (main (demo_opts "2") fifth_frame_world) = Aborted BYE_SetPlane)
  /\ (exists before,
        fst (main (demo_opts "2") fifth_frame_world)
        = before ++ [EV_DQBUF None])
  /\ releases (fst (main (demo_opts "2") fifth_frame_world)) = []
  /\ allocations (fst (main (demo_opts "2") fifth_frame_world)) = 2%nat.
Proof.
  apply (loop_fault_aborts_without_teardown (demo_opts "2")
           fifth_frame_world (EV_DQBUF None)).
  - vm_compute; repeat (try (left; reflexivity); right).
  - reflexivity.
Defined.

(** With two buffers and the fifth dequeue failing, the process aborts and
    both allocations and both exported descriptors are left. *)
Lemma fault_leaves_pool :
  ~ torn_down_after_fault (demo_opts "2") fifth_frame_world.
Proof.
  intros H; destruct (H (or_introl eq_refl)) as [Hlive _].
  vm_compute in Hlive; discriminate Hlive.
Qed.

(** ** The buffer count *)

(** One step of a computation whose first part is known to return. *)
Ltac bind_ok :=
  match goal with
  | |- result_of (bind ?m ?k) = _ =>
      rewrite (result_of_bind m k _ eq_refl); cbv beta
  end.


(** C5.  No minimum is put on the buffer count.  Whatever count the
    command line gives, 1 included, the negotiation goes through as
    soon as the devices open, the format calls succeed and the producer
    grants at least that many buffers; the count reaches the pool
    unchanged.  The only test on it is the one against the grant. *)
Theorem buffer_count_bounded_by_grant_only (opts : list (ascii * string))
    (wd : world) (s0 : setup) (caps granted : Z) (fmt0 fmt : pix_format) :
  parse_args opts = (0, s0) ->
  module s0 <> EmptyString ->
  video s0 <> EmptyString ->
  0 <= w_drmOpen wd ->
  0 <= w_open wd ->
  w_querycap wd = Some caps ->
  Z.land (u32 (Z.lnot caps)) V4L2_CAP_VIDEO_CAPTURE = 0 ->
  w_g_fmt_start wd = Some fmt0 ->
  w_s_fmt wd = true ->
  w_g_fmt_final wd = Some fmt ->
  w_reqbufs wd = Some granted ->
  buffer_count s0 <= granted ->
  exists s,
    result_of (negotiate opts wd)
    = inl (s, pix_sizeimage fmt, pix_bytesperline fmt)
    /\ buffer_count s = buffer_count s0.
Proof.
  intros Hparse Hmod Hvid Hdrm Hopen Hcaps Hcap Hf0 Hs Hf Hreq Hle.
  exists (set_h (pix_height fmt)
            (set_w (pix_width fmt) (set_in_fourcc (pix_pixelformat fmt) s0))).
  split; [| reflexivity].
  unfold negotiate; rewrite Hparse.
  apply String.eqb_neq in Hmod; apply String.eqb_neq in Hvid.
  apply Z.ltb_ge in Hdrm; apply Z.ltb_ge in Hopen; apply Z.ltb_ge in Hle.
  rewrite Hmod, Hvid, Hdrm, Hopen, Hcaps, Hf0, Hs, Hf, Hreq.
  repeat bind_ok.
  rewrite Hcap; repeat bind_ok.
  rewrite Hle; repeat bind_ok.
  reflexivity.
Qed.

Lemma buffer_count_bounded_by_grant_only_witness :
  exists s,
    result_of (negotiate (demo_opts "1") single_world)
    = inl (s, 614400, 1280)
    /\ buffer_count s = 1.
Proof.
  apply (buffer_count_bounded_by_grant_only (demo_opts "1") single_world
           (snd (parse_args (demo_opts "1"))) 1 4
           camera_format camera_format);
    try reflexivity; try (vm_compute; discriminate).
Defined.

(** With [-b 1] at the demo display the producer is started and a frame
    is shown. *)
Lemma single_buffer_streams :
  ~ rejects_single_buffer (demo_opts "1") single_world.
Proof.
  intros H; apply (H eq_refl true).
  vm_compute; repeat (try (left; reflexivity); right).
Qed.

(** ** Wakes of the loop *)

Lemma loop_body_whole_turn s st k index b :
  dqbuf_reply k = Some index ->
  buffer_at (stream_buffer st) index = Some b ->
  setplane_reply k = true ->
  (current_buffer st = -1
   \/ exists cb,
        buffer_at (stream_buffer st) (current_buffer st) = Some cb
        /\ qbuf_reply k = true) ->
  exists st',
    stream_buffer st' = stream_buffer st
    /\ loop_body s st k
       = (EV_DQBUF (Some index) :: present_of s b :: give_back st, inl st').
Proof.
  intros Hdq Hb Hsp Hrec.
  unfold loop_body, give_back, present_of.
  rewrite Hdq, Hb, Hsp.
  unfold bind, BYE_ON, call, ret, stop; simpl.
  destruct Hrec as [Hcur | [cb [Hcb Hq]]].
  - rewrite Hcur; simpl.
    eexists; split; [| reflexivity]; reflexivity.
  - destruct (current_buffer st =? -1); simpl.
    + eexists; split; [| reflexivity]; reflexivity.
    + rewrite Hcb, Hq; simpl.
      eexists; split; [| reflexivity]; reflexivity.
Qed.

(** C6.  The loop does not tell the two signals apart: whatever the
    [revents] of a wake, a [poll] result of 0 or less ends the loop with
    no buffer call, and a positive one, also when only the display
    descriptor is ready, runs the whole turn.  The turn calls
    [VIDIOC_DQBUF]; when that call fails the process aborts there; when
    it gives a buffer of the pool, the turn makes the present call for
    the dequeued buffer and the [VIDIOC_QBUF] of the recorded one, and the
    loop goes on with the same pool. *)
Theorem wake_runs_whole_turn (s : setup) (st : stream) (k : wake)
    (wakes : list wake) (v4l drm : bool) :
  (poll_ret k <= 0 ->
   handoff s st (with_revents v4l drm k :: wakes)
   = ([EV_poll (poll_ret k)], inl st))
  /\ (poll_ret k > 0 ->
      dqbuf_reply k = None ->
      handoff s st (with_revents v4l drm k :: wakes)
      = ([EV_poll (poll_ret k); EV_DQBUF None], inr (Aborted BYE_DQBUF)))
  /\ (poll_ret k > 0 ->
      forall index b,
        dqbuf_reply k = Some index ->
        buffer_at (stream_buffer st) index = Some b ->
        setplane_reply k = true ->
        (current_buffer st = -1
         \/ exists cb,
              buffer_at (stream_buffer st) (current_buffer st) = Some cb
              /\ qbuf_reply k = true) ->
        exists st',
          stream_buffer st' = stream_buffer st
          /\ handoff s st (with_revents v4l drm k :: wakes)
             = (EV_poll (poll_ret k) :: EV_DQBUF (Some index)
                :: present_of s b :: give_back st
                ++ trace_of (handoff s st' wakes),
                result_of (handoff s st' wakes))).
Proof.
  change (handoff s st (with_revents v4l drm k :: wakes))
    with (handoff s st (k :: wakes)).
  cbn [handoff]; rewrite bind_call; split; [| split].
  - intros Hpoll.
    destruct (Z.gtb_spec (poll_ret k) 0) as [H | _]; [lia | reflexivity].
  - intros Hpoll Hdq.
    destruct (Z.gtb_spec (poll_ret k) 0) as [_ | H]; [| lia].
    unfold loop_body; rewrite Hdq; reflexivity.
  - intros Hpoll index b Hdq Hb Hsp Hrec.
    destruct (Z.gtb_spec (poll_ret k) 0) as [_ | H]; [| lia].
    destruct (loop_body_whole_turn s st k index b Hdq Hb Hsp Hrec)
      as [st' [Hpool Hbody]].
    exists st'; split; [exact Hpool |].
    rewrite (bind_inl _ _ st' (f_equal snd Hbody)).
    rewrite trace_of_pair, result_of_pair.
    unfold trace_of at 1; rewrite Hbody; reflexivity.
Qed.

Lemma wake_runs_whole_turn_witness :
  handoff demo_setup (stream_recording 0)
    [with_revents false true
       {| poll_ret := 0; revents_v4l := false; revents_drm := false;
          dqbuf_reply := Some 1; setplane_reply := true;
          qbuf_reply := true |}]
  = ([EV_poll 0], inl (stream_recording 0))
  /\ handoff demo_setup (stream_recording 0)
       [with_revents false true dqbuf_fails]
     = ([EV_poll 1; EV_DQBUF None], inr (Aborted BYE_DQBUF))
  /\ exists st',
       stream_buffer st' = demo_pool
       /\ handoff demo_setup (stream_recording 0)
            [with_revents false true (frame 1)]
          = (EV_poll 1 :: EV_DQBUF (Some 1)
             :: present_of demo_setup
                  {| bo_handle := 2; fb_handle := 101; dbuf_fd := 11 |}
             :: give_back (stream_recording 0)
             ++ trace_of (handoff demo_setup st' []),
             result_of (handoff demo_setup st' [])).
Proof.
  split; [| split].
  - apply (proj1 (wake_runs_whole_turn demo_setup (stream_recording 0)
                    {| poll_ret := 0; revents_v4l := false;
                       revents_drm := false; dqbuf_reply := Some 1;
                       setplane_reply := true; qbuf_reply := true |}
                    [] false true)).
    simpl; lia.
  - apply (proj1 (proj2 (wake_runs_whole_turn demo_setup
                           (stream_recording 0) dqbuf_fails [] false true))).
    + simpl; lia.
    + reflexivity.
  - refine (proj2 (proj2 (wake_runs_whole_turn demo_setup
                            (stream_recording 0) (frame 1) [] false true))
              _ 1 {| bo_handle := 2; fb_handle := 101; dbuf_fd := 11 |}
              _ _ _ _).
    + simpl; lia.
    + reflexivity.
    + reflexivity.
    + reflexivity.
    + right; eexists; split; reflexivity.
Defined.

(** Woken for the display alone, with buffer 0 recorded: if the dequeue
    gets buffer 1, the turn dequeues it, presents it and queues buffer 0;
    if the dequeue fails, the process aborts at it.  Either way the wake
    has not served liveness only. *)
Lemma display_wake_moves_buffers :
  ~ display_wake_moves_nothing demo_setup (stream_recording 0)
      (display_event 1)
  /\ ~ display_wake_moves_nothing demo_setup (stream_recording 0)
        (with_revents false true dqbuf_fails).
Proof.
  split; intros H; specialize (H eq_refl eq_refl);
    vm_compute in H; destruct H as [Hdq [_ Hres]];
    first [discriminate Hdq | discriminate Hres].
Qed.

(** ** The recorded buffer *)

Lemma s32_u32 c : - 2 ^ 31 <= c < 2 ^ 31 -> s32 (u32 c) = c.
Proof.
  unfold s32, u32; intros Hc.
  rewrite Z.mod_mod by (apply Z.pow_nonzero; lia).
  change (2 ^ 32) with 4294967296 in *.
  change (2 ^ 31) with 2147483648 in *.
  pose proof (Z.mod_pos_bound c 4294967296 eq_refl) as Hb.
  pose proof (Z.div_mod c 4294967296) as Hd.
  destruct (Z.ltb_spec (c mod 4294967296) 2147483648); lia.
Qed.

(** Once a buffer is recorded, a turn that comes to its end leaves the
    record as it was: the assignment that ends the body reads the index
    that the queueing branch wrote into [buf], not the dequeued one. *)
Lemma loop_body_keeps_recorded s st k st' :
  current_buffer st <> -1 ->
  - 2 ^ 31 <= current_buffer st < 2 ^ 31 ->
  result_of (loop_body s st k) = inl st' ->
  current_buffer st' = current_buffer st.
Proof.
  intros Hne Hrange H; unfold loop_body in H.
  apply bind_returns in H; destruct H as [[] [_ H]].
  destruct (dqbuf_reply k) as [index |]; [| discriminate H].
  destruct (buffer_at (stream_buffer st) index) as [b |]; [| discriminate H].
  apply bind_returns in H; destruct H as [[] [_ H]].
  apply bind_returns in H; destruct H as [[] [_ H]].
  apply bind_returns in H; destruct H as [index' [Hidx H]].
  injection H as <-; cbn [current_buffer set_current_buffer].
  destruct (Z.eqb_spec (current_buffer st) (-1)) as [E | _];
    [contradiction |].
  destruct (buffer_at (stream_buffer st) (current_buffer st)) as [cb |];
    [| discriminate Hidx].
  apply bind_returns in Hidx; destruct Hidx as [[] [_ Hidx]].
  apply bind_returns in Hidx; destruct Hidx as [[] [_ Hidx]].
  injection Hidx as <-; now apply s32_u32.
Qed.

Lemma requeued_app t1 t2 : requeued (t1 ++ t2) = requeued t1 ++ requeued t2.
Proof.
  induction t1 as [| e t1 IH]; [reflexivity |].
  destruct e; simpl; rewrite ?IH; reflexivity.
Qed.

Lemma loop_body_requeues_recorded s st k :
  Forall (fun i => i = u32 (current_buffer st))
    (requeued (trace_of (loop_body s st k))).
Proof.
  unfold loop_body, bind, BYE_ON, call, ret, stop, trace_of.
  destruct (dqbuf_reply k) as [index |]; simpl; [| constructor].
  destruct (buffer_at (stream_buffer st) index) as [b |]; simpl;
    [| constructor].
  destruct (setplane_reply k); simpl; [| constructor].
  destruct (current_buffer st =? -1); simpl; [constructor |].
  destruct (buffer_at (stream_buffer st) (current_buffer st)); simpl;
    [| constructor].
  destruct (qbuf_reply k); simpl; repeat constructor.
Qed.

(** From the turn after the first frame on, whatever the producer hands
    out, every buffer the loop gives back is the one recorded at the
    start. *)
Lemma handoff_requeues_recorded s wakes :
  forall st,
    current_buffer st <> -1 ->
    - 2 ^ 31 <= current_buffer st < 2 ^ 31 ->
    Forall (fun i => i = u32 (current_buffer st))
      (requeued (trace_of (handoff s st wakes))).
Proof.
  induction wakes as [| k wakes IH]; intros st Hne Hrange; cbn [handoff];
    rewrite bind_call, trace_of_pair; cbn [requeued].
  - constructor.
  - destruct (poll_ret k >? 0); [| constructor].
    pose proof (loop_body_requeues_recorded s st k) as Hbody.
    destruct (bind_cases (loop_body s st k) (fun st' => handoff s st' wakes))
      as [[st' [Hb E]] | [o [Hb E]]]; rewrite E, trace_of_pair; clear E;
      [| exact Hbody].
    rewrite requeued_app; apply Forall_app; split; [exact Hbody |].
    pose proof (loop_body_keeps_recorded s st k st' Hne Hrange Hb) as Hkeep.
    rewrite <- Hkeep; apply IH; rewrite Hkeep; assumption.
Qed.

(** The crop of the command line is not read by the loop. *)
Lemma loop_body_ignores_crop s st k r b :
  loop_body (set_use_crop b (set_crop r s)) st k = loop_body s st k.
Proof. reflexivity. Qed.

(** C1.  Two buffers, the producer filling them in the order it got them
    (0, 1, then 0 again).  The turns present buffers 0, 1, 0.  The second
    turn gives buffer 0 back, as it should; the third turn, before which
    buffer 1 was presenting, gives back buffer 0 again, the buffer it has
    just presented. *)
Theorem third_turn_requeues_presented_buffer :
  let t := fst (main (demo_opts "2") pingpong_world) in
  fifo_producer [] t = true
  /\ map dequeued (turns t) = [[0]; [1]; [0]; []]
  /\ map (presenting demo_pool) (turns t) = [Some 0; Some 1; Some 0; None]
  /\ map requeued (turns t) = [[]; [0]; [0]; []].
Proof. vm_compute; repeat split. Qed.

(** C2.  Two buffers, the producer filling them in the order it got them
    (0, 1, then 0 again).  After the third turn buffer 0 is on the plane
    and is queued to the producer at the same time, the record still
    naming buffer 0; buffer 1 is neither presenting nor queued. *)
Theorem presenting_buffer_is_queued :
  let run := main_steps (demo_opts "2") pingpong_world in
  fifo_producer [] (trace_of run) = true
  /\ result_of run = inl (stream_recording 0)
  /\ presenting demo_pool (trace_of run) = Some 0
  /\ queued_after (trace_of run) = [0].
Proof. vm_compute; repeat split. Qed.

(** C9.  With [-s 320,240@0,0] on the command line the crop is stored and
    [use_crop] is set, and every present call still passes the whole
    640x480 frame as its source; the destination is the compose
    rectangle, here the CRTC's. *)
Theorem crop_is_not_presented :
  let s := snd (parse_args crop_opts) in
  let t := fst (main crop_opts pingpong_world) in
  use_crop s = true
  /\ crop s = {| rect_left := 0; rect_top := 0; rect_width := 320;
                 rect_height := 240 |}
  /\ source_rects t
     = repeat (0, 0, Z.shiftl 640 16, Z.shiftl 480 16) 3
  /\ destination_rects t
     = repeat {| rect_left := 0; rect_top := 0; rect_width := 1920;
                 rect_height := 1080 |} 3.
Proof. vm_compute; repeat split. Qed.

(** ** The command line *)

Lemma substring_length n m s :
  (String.length (substring n m s) <= m)%nat.
Proof.
  revert n m; induction s as [| c s IH]; intros n m.
  - destruct n, m; simpl; lia.
  - destruct n, m; simpl; try lia.
    + specialize (IH 0%nat m); lia.
    + apply (IH n 0%nat).
    + apply (IH n (S m)).
Qed.

Lemma parse_opt_names c optarg s :
  (String.length (module s) <= 31)%nat ->
  (String.length (video s) <= 31)%nat ->
  (String.length (module (snd (parse_opt c optarg s))) <= 31)%nat
  /\ (String.length (video (snd (parse_opt c optarg s))) <= 31)%nat.
Proof.
  intros Hm Hv; unfold parse_opt.
  repeat match goal with
         | |- context [if ?b then _ else _] => destruct b
         | |- context [let '(_, _) := ?p in _] => destruct p
         end;
    cbn [snd module video set_module set_conId set_crtcId set_video set_w
         set_h set_use_wh set_in_fourcc set_out_fourcc set_buffer_count
         set_use_crop set_use_compose set_crop set_compose];
    split; try assumption; apply substring_length.
Qed.

Lemma parse_opts_names opts :
  forall s,
    (String.length (module s) <= 31)%nat ->
    (String.length (video s) <= 31)%nat ->
    (String.length (module (snd (parse_opts opts s))) <= 31)%nat
    /\ (String.length (video (snd (parse_opts opts s))) <= 31)%nat.
Proof.
  induction opts as [| [c optarg] opts IH]; intros s Hm Hv.
  - split; assumption.
  - cbn [parse_opts].
    destruct (parse_opt_names c optarg s Hm Hv) as [Hm' Hv'].
    destruct (parse_opt c optarg s) as [bad s']; cbn [snd] in Hm', Hv'.
    destruct bad; [split; assumption | now apply IH].
Qed.

(** X1.  Whatever the command line, the module name and the video node
    that [parse_args] keeps are at most 31 characters long: the 32-byte
    arrays of [struct setup] are never overrun and stay terminated. *)
Theorem parse_args_names_fit (opts : list (ascii * string)) :
  (String.length (module (snd (parse_args opts))) <= 31)%nat
  /\ (String.length (video (snd (parse_args opts))) <= 31)%nat.
Proof.
  apply parse_opts_names; simpl; lia.
Qed.

Lemma parse_opts_app l1 l2 s :
  parse_opts (l1 ++ l2) s
  = if fst (parse_opts l1 s) =? 0
    then parse_opts l2 (snd (parse_opts l1 s))
    else parse_opts l1 s.
Proof.
  revert s; induction l1 as [| [c optarg] l1 IH]; intros s.
  - reflexivity.
  - cbn [app parse_opts].
    destruct (parse_opt c optarg s) as [bad s'].
    destruct bad; [reflexivity | apply IH].
Qed.

(** X2.  [parse_args] reads the options from left to right and returns
    -1 at the first one it rejects: the options after it are not looked
    at, and the setup is the one that option left. *)
Theorem parse_args_stops_at_first_rejected (pre post : list (ascii * string))
    (c : ascii) (optarg : string) (s1 : setup) :
  parse_args pre = (0, s1) ->
  fst (parse_opt c optarg s1) = true ->
  parse_args (pre ++ (c, optarg) :: post)
  = (-1, snd (parse_opt c optarg s1)).
Proof.
  unfold parse_args; intros Hpre Hbad.
  rewrite parse_opts_app, Hpre; cbn [fst snd Z.eqb parse_opts].
  destruct (parse_opt c optarg s1) as [bad s']; cbn [fst snd] in *.
  now rewrite Hbad.
Qed.

Lemma parse_args_stops_at_first_rejected_witness :
  parse_args ([("b"%char, "2"%string)] ++ ("S"%char, "640x480"%string)
              :: [("b"%char, "3"%string)])
  = (-1, snd (parse_opt "S" "640x480" (set_buffer_count 2 zero_setup))).
Proof.
  apply (parse_args_stops_at_first_rejected [("b"%char, "2"%string)]
           [("b"%char, "3"%string)] "S" "640x480"
           (set_buffer_count 2 zero_setup)); reflexivity.
Defined.

Lemma bind_stop_first {A B} (m : M A) (k : A -> M B) o :
  m = ([], inr o) -> bind m k = ([], inr o).
Proof. intros ->; reflexivity. Qed.

Lemma bind_BYE_ON_false {B} site (k : unit -> M B) :
  bind (BYE_ON false site) k = k tt.
Proof. unfold bind, BYE_ON, ret; simpl; now destruct (k tt). Qed.

(** X3.  When [parse_args] fails, or the module name or the video node is
    missing from the command line, [main] aborts before it has made a
    single call to either subsystem. *)
Theorem main_calls_nothing_without_arguments (opts : list (ascii * string))
    (wd : world) :
  fst (parse_args opts) <> 0
  \/ module (snd (parse_args opts)) = EmptyString
  \/ video (snd (parse_args opts)) = EmptyString ->
  fst (main opts wd) = []
  /\ (snd (main opts wd) = Aborted BYE_parse_arguments
      \/ snd (main opts wd) = Aborted BYE_module_missing
      \/ snd (main opts wd) = Aborted BYE_video_missing).
Proof.
  intros H.
  assert (exists site,
             negotiate opts wd = ([], inr (Aborted site))
             /\ (site = BYE_parse_arguments \/ site = BYE_module_missing
                 \/ site = BYE_video_missing)) as [site [Hn Hsite]].
  { unfold negotiate; destruct (parse_args opts) as [r s]; cbn [fst snd] in H.
    destruct (Z.eqb_spec r 0) as [-> | Hr]; cbn [negb].
    2: { exists BYE_parse_arguments; split; [reflexivity | now left]. }
    rewrite bind_BYE_ON_false.
    destruct (String.eqb_spec (module s) EmptyString) as [Hm | Hm].
    { exists BYE_module_missing; split; [reflexivity | now right; left]. }
    rewrite bind_BYE_ON_false.
    destruct (String.eqb_spec (video s) EmptyString) as [Hv | Hv].
    { exists BYE_video_missing; split; [reflexivity | now right; right]. }
    destruct H as [H | [H | H]]; contradiction. }
  unfold main, main_steps.
  rewrite (bind_stop_first _ _ _ Hn); cbn [trace_of result_of fst snd].
  split; [reflexivity |].
  destruct Hsite as [-> | [-> | ->]]; auto.
Qed.

Lemma main_calls_nothing_without_arguments_witness :
  fst (main [("b"%char, "2"%string)] pingpong_world) = []
  /\ (snd (main [("b"%char, "2"%string)] pingpong_world)
      = Aborted BYE_parse_arguments
      \/ snd (main [("b"%char, "2"%string)] pingpong_world)
         = Aborted BYE_module_missing
      \/ snd (main [("b"%char, "2"%string)] pingpong_world)
         = Aborted BYE_video_missing).
Proof.
  apply (main_calls_nothing_without_arguments [("b"%char, "2"%string)]
           pingpong_world).
  right; left; reflexivity.
Defined.

(** ** Pixel-layout tags *)

Lemma lor_add_disjoint lo hi k :
  0 <= k -> 0 <= lo < 2 ^ k -> Z.lor lo (hi * 2 ^ k) = lo + hi * 2 ^ k.
Proof.
  intros Hk Hlo.
  assert (Z.land lo (hi * 2 ^ k) = 0) as Hland.
  { apply Z.bits_inj'; intros m Hm.
    rewrite Z.land_spec, Z.bits_0.
    destruct (Z.lt_ge_cases m k) as [Hlt | Hge].
    - rewrite Z.mul_pow2_bits_low by exact Hlt; apply andb_false_r.
    - rewrite <- (Z.mod_small lo (2 ^ k)) by exact Hlo.
      rewrite Z.mod_pow2_bits_high by lia; reflexivity. }
  rewrite <- (Z.lxor_lor _ _ Hland); symmetry.
  now apply Z.add_nocarry_lxor.
Qed.

Lemma unsigned_of_seven_bit c :
  seven_bit c ->
  unsigned_of_char c = Z.of_nat (nat_of_ascii c)
  /\ 0 <= Z.of_nat (nat_of_ascii c) < 128.
Proof.
  unfold seven_bit, unsigned_of_char, u32; intros H.
  assert (0 <= Z.of_nat (nat_of_ascii c) < 128) as Hr by lia.
  destruct (Z.ltb_spec (Z.of_nat (nat_of_ascii c)) 128); [| lia].
  split; [apply Z.mod_small; change (2 ^ 32) with 4294967296; lia | lia].
Qed.

Lemma fourcc_of_sum c0 c1 c2 c3 :
  seven_bit c0 -> seven_bit c1 -> seven_bit c2 -> seven_bit c3 ->
  fourcc_of (String c0 (String c1 (String c2 (String c3 EmptyString))))
  = Z.of_nat (nat_of_ascii c0) + Z.of_nat (nat_of_ascii c1) * 2 ^ 8
    + Z.of_nat (nat_of_ascii c2) * 2 ^ 16
    + Z.of_nat (nat_of_ascii c3) * 2 ^ 24.
Proof.
  intros H0 H1 H2 H3; unfold fourcc_of.
  destruct (unsigned_of_seven_bit c0 H0) as [-> B0].
  destruct (unsigned_of_seven_bit c1 H1) as [-> B1].
  destruct (unsigned_of_seven_bit c2 H2) as [-> B2].
  destruct (unsigned_of_seven_bit c3 H3) as [-> B3].
  rewrite !Z.shiftl_mul_pow2 by lia.
  unfold u32.
  change (2 ^ 0) with 1; change (2 ^ 8) with 256 in *.
  change (2 ^ 16) with 65536 in *; change (2 ^ 24) with 16777216 in *.
  change (2 ^ 32) with 4294967296.
  rewrite !Z.mod_small by lia.
  rewrite Z.mul_1_r.
  change 256 with (2 ^ 8); change 65536 with (2 ^ 16).
  change 16777216 with (2 ^ 24).
  rewrite (lor_add_disjoint _ _ 8) by (change (2 ^ 8) with 256; lia).
  rewrite (lor_add_disjoint _ _ 16)
    by (change (2 ^ 8) with 256; change (2 ^ 16) with 65536; lia).
  rewrite (lor_add_disjoint _ _ 24)
    by (change (2 ^ 8) with 256; change (2 ^ 16) with 65536;
        change (2 ^ 24) with 16777216; lia).
  reflexivity.
Qed.

Lemma char_of_code c : char_of_int (Z.of_nat (nat_of_ascii c)) = c.
Proof.
  unfold char_of_int.
  pose proof (nat_ascii_bounded c) as Hb.
  rewrite Z.mod_small by lia.
  rewrite Nat2Z.id; apply ascii_nat_embedding.
Qed.

Lemma char_of_int_low x y :
  x mod 256 = y mod 256 -> char_of_int x = char_of_int y.
Proof. unfold char_of_int; now intros ->. Qed.

(** X4.  A tag of four 7-bit characters given with [-f] or [-F] is packed
    low byte first into 32 bits, and the four characters that the
    "FB fourcc" message of [buffer_create] writes for that value are the
    characters of the tag again. *)
Theorem fourcc_text_of_tag (c0 c1 c2 c3 : ascii) :
  seven_bit c0 -> seven_bit c1 -> seven_bit c2 -> seven_bit c3 ->
  let tag := String c0 (String c1 (String c2 (String c3 EmptyString))) in
  0 <= fourcc_of tag < 2 ^ 32
  /\ fourcc_text (fourcc_of tag) = tag.
Proof.
  intros H0 H1 H2 H3 tag; subst tag.
  rewrite (fourcc_of_sum c0 c1 c2 c3 H0 H1 H2 H3).
  destruct (unsigned_of_seven_bit c0 H0) as [_ B0].
  destruct (unsigned_of_seven_bit c1 H1) as [_ B1].
  destruct (unsigned_of_seven_bit c2 H2) as [_ B2].
  destruct (unsigned_of_seven_bit c3 H3) as [_ B3].
  change (2 ^ 8) with 256; change (2 ^ 16) with 65536.
  change (2 ^ 24) with 16777216; change (2 ^ 32) with 4294967296.
  split; [lia |].
  unfold fourcc_text.
  rewrite !Z.shiftr_div_pow2 by lia.
  change (2 ^ 8) with 256; change (2 ^ 16) with 65536.
  change (2 ^ 24) with 16777216.
  rewrite (char_of_int_low _ (Z.of_nat (nat_of_ascii c0)))
    by (Z.div_mod_to_equations; lia).
  rewrite char_of_code.
  rewrite (char_of_int_low _ (Z.of_nat (nat_of_ascii c1)))
    by (Z.div_mod_to_equations; lia).
  rewrite char_of_code.
  rewrite (char_of_int_low _ (Z.of_nat (nat_of_ascii c2)))
    by (Z.div_mod_to_equations; lia).
  rewrite char_of_code.
  rewrite (char_of_int_low _ (Z.of_nat (nat_of_ascii c3)))
    by (Z.div_mod_to_equations; lia).
  rewrite char_of_code.
  reflexivity.
Qed.

Lemma fourcc_text_of_tag_witness :
  0 <= fourcc_of "XR24" < 2 ^ 32 /\ fourcc_text (fourcc_of "XR24") = "XR24"%string.
Proof.
  apply (fourcc_text_of_tag "X" "R" "2" "4");
    apply Nat.ltb_lt; reflexivity.
Defined.

(** ** The format of the producer *)

Lemma capture_bit caps :
  Z.land (u32 (Z.lnot caps)) V4L2_CAP_VIDEO_CAPTURE = 0 ->
  Z.testbit caps 0 = true.
Proof.
  intros H; apply Z.eqb_eq in H.
  change V4L2_CAP_VIDEO_CAPTURE with (2 ^ 0) in H.
  rewrite land_pow2_testbit in H by lia.
  unfold u32 in H; rewrite Z.mod_pow2_bits_low in H by lia.
  rewrite Z.lnot_spec in H by lia.
  now destruct (Z.testbit caps 0).
Qed.

(** X5.  A negotiation that succeeds leaves the geometry of the producer
    in the setup: width, height and input layout are those of the last
    [VIDIOC_G_FMT], not those of the command line, and the buffer size and
    the pitch are its [sizeimage] and [bytesperline]; the producer has the
    capture capability; everything else the command line set is kept. *)
Theorem negotiate_takes_final_format (opts : list (ascii * string))
    (wd : world) (s : setup) (size pitch : Z) :
  result_of (negotiate opts wd) = inl (s, size, pitch) ->
  exists caps fmt,
    w_querycap wd = Some caps /\ Z.testbit caps 0 = true
    /\ w_g_fmt_final wd = Some fmt
    /\ s = set_h (pix_height fmt)
             (set_w (pix_width fmt)
                (set_in_fourcc (pix_pixelformat fmt)
                   (snd (parse_args opts))))
    /\ size = pix_sizeimage fmt /\ pitch = pix_bytesperline fmt.
Proof.
  unfold negotiate; destruct (parse_args opts) as [r s0]; cbn [snd].
  intros H.
  apply bind_returns in H; destruct H as [[] [_ H]].
  apply bind_returns in H; destruct H as [[] [_ H]].
  apply bind_returns in H; destruct H as [[] [_ H]].
  apply bind_returns in H; destruct H as [[] [_ H]].
  apply bind_returns in H; destruct H as [[] [_ H]].
  apply bind_returns in H; destruct H as [[] [_ H]].
  apply bind_returns in H; destruct H as [[] [_ H]].
  apply bind_returns in H; destruct H as [[] [_ H]].
  apply bind_returns in H; destruct H as [caps [Hcaps H]].
  apply get_some_returns in Hcaps.
  apply bind_returns in H; destruct H as [[] [Hcap H]].
  apply BYE_ON_returns, negb_false_iff, Z.eqb_eq, capture_bit in Hcap.
  apply bind_returns in H; destruct H as [[] [_ H]].
  apply bind_returns in H; destruct H as [fmt0 [_ H]].
  apply bind_returns in H; destruct H as [[] [_ H]].
  apply bind_returns in H; destruct H as [[] [_ H]].
  apply bind_returns in H; destruct H as [[] [_ H]].
  apply bind_returns in H; destruct H as [fmt [Hfmt H]].
  apply get_some_returns in Hfmt.
  apply bind_returns in H; destruct H as [[] [_ H]].
  apply bind_returns in H; destruct H as [granted [_ H]].
  apply bind_returns in H; destruct H as [[] [_ H]].
  unfold ret, result_of in H; cbn [snd] in H.
  injection H as <- <- <-.
  exists caps, fmt; repeat split; assumption.
Qed.

Lemma negotiate_takes_final_format_witness :
  exists caps fmt,
    w_querycap single_world = Some caps /\ Z.testbit caps 0 = true
    /\ w_g_fmt_final single_world = Some fmt
    /\ set_h 480 (set_w 640 (set_in_fourcc YUYV
         (snd (parse_args (demo_opts "1")))))
       = set_h (pix_height fmt)
           (set_w (pix_width fmt)
              (set_in_fourcc (pix_pixelformat fmt)
                 (snd (parse_args (demo_opts "1")))))
    /\ 614400 = pix_sizeimage fmt /\ 1280 = pix_bytesperline fmt.
Proof.
  apply (negotiate_takes_final_format (demo_opts "1") single_world
           (set_h 480 (set_w 640 (set_in_fourcc YUYV
              (snd (parse_args (demo_opts "1")))))) 614400 1280).
  reflexivity.
Defined.

(** ** The output *)

Lemma ret_returns {A} (a b : A) : result_of (ret a) = inl b -> a = b.
Proof. intros H; now injection H. Qed.

Lemma crtc_index_found l id :
  forall i,
    0 <= i ->
    crtc_index l id i <> -1 ->
    i <= crtc_index l id i < i + Z.of_nat (List.length l)
    /\ nth_error l (Z.to_nat (crtc_index l id i - i)) = Some id
    /\ forall j, (j < Z.to_nat (crtc_index l id i - i))%nat ->
                 nth_error l j <> Some id.
Proof.
  induction l as [| c l IH]; intros i Hi Hfound; cbn [crtc_index] in *.
  - contradiction.
  - destruct (Z.eqb_spec id c) as [-> | Hne].
    + rewrite Z.sub_diag; cbn [List.length]; repeat split; lia.
    + destruct (IH (i + 1) ltac:(lia) Hfound) as [Hr [Hnth Hfirst]].
      cbn [List.length]; split; [lia |].
      replace (Z.to_nat (crtc_index l id (i + 1) - i))
        with (S (Z.to_nat (crtc_index l id (i + 1) - (i + 1)))) by lia.
      split; [exact Hnth |].
      intros [| j] Hj; cbn [nth_error]; [congruence |].
      apply Hfirst; lia.
Qed.

Lemma find_crtc_inversion wd s r s' :
  result_of (find_crtc wd s) = inl (r, s') ->
  (r = -1 /\ s' = s
   /\ (w_resources wd = None
       \/ exists res, w_resources wd = Some res /\ crtcs res = []))
  \/ exists res s1,
       w_resources wd = Some res /\ crtcs res <> []
       /\ connector_settled wd res s s1
       /\ let s2 := set_crtcIdx (crtc_index (crtcs res) (crtcId s1) 0) s1 in
          (r = -1 /\ s' = s2)
          \/ (r = 0 /\ crtcIdx s2 <> -1 /\ connectors res <> []
              /\ exists c,
                   w_connector wd (u32 (conId s2)) = Some c
                   /\ count_modes c <> 0
                   /\ ((use_compose s2 = true /\ s' = s2)
                       \/ (use_compose s2 = false
                           /\ exists crtc,
                                w_crtc wd (crtcId s2) = Some crtc
                                /\ s' = set_compose (crtc_rect crtc) s2))).
Proof.
  intros H; unfold find_crtc in H.
  apply bind_returns in H; destruct H as [[] [_ H]].
  destruct (w_resources wd) as [res |] eqn:Hres.
  2: { apply ret_returns in H; injection H as <- <-; left; auto. }
  destruct (Z.leb_spec (Z.of_nat (List.length (crtcs res))) 0) as [Hc | Hc].
  { apply ret_returns in H; injection H as <- <-; left.
    repeat split; right; exists res; split; [reflexivity |].
    destruct (crtcs res); [reflexivity | simpl in Hc; lia]. }
  right.
  apply bind_returns in H; destruct H as [s1 [H1 H]].
  exists res, s1; split; [reflexivity |].
  split; [intros E; rewrite E in Hc; simpl in Hc; lia |].
  split.
  { unfold connector_settled.
    destruct (Z.eqb_spec (conId s) 0) as [E | E].
    - right; split; [exact E |].
      apply bind_returns in H1; destruct H1 as [sc [Hc1 H1]].
      destruct (Z.eqb_spec (conId sc) 0) as [E' | E']; [discriminate H1 |].
      apply ret_returns in H1; subst sc; auto.
    - left; apply ret_returns in H1; auto. }
  cbv zeta in H |- *.
  set (s2 := set_crtcIdx (crtc_index (crtcs res) (crtcId s1) 0) s1) in *.
  destruct (Z.eqb_spec (crtcIdx s2) (-1)) as [Ei | Ei].
  { apply ret_returns in H; injection H as <- <-; left; auto. }
  destruct (Z.leb_spec (Z.of_nat (List.length (connectors res))) 0)
    as [Hn | Hn].
  { apply ret_returns in H; injection H as <- <-; left; auto. }
  apply bind_returns in H; destruct H as [[] [_ H]].
  destruct (w_connector wd (u32 (conId s2))) as [c |] eqn:Hcon.
  2: { apply ret_returns in H; injection H as <- <-; left; auto. }
  destruct (Z.eqb_spec (count_modes c) 0) as [Em | Em].
  { apply ret_returns in H; injection H as <- <-; left; auto. }
  apply bind_returns in H; destruct H as [s3 [H3 H]].
  apply ret_returns in H; injection H as <- <-; right.
  split; [reflexivity |]. split; [exact Ei |].
  split; [intros E; rewrite E in Hn; simpl in Hn; lia |].
  exists c; split; [reflexivity |]. split; [exact Em |].
  destruct (use_compose s2) eqn:Hu.
  - left; apply ret_returns in H3; auto.
  - right; split; [reflexivity |].
    apply bind_returns in H3; destruct H3 as [[] [_ H3]].
    destruct (w_crtc wd (crtcId s2)) as [crtc |]; [| discriminate H3].
    apply ret_returns in H3; exists crtc; split; [reflexivity |].
    now subst s3.
Qed.

(** X6.  When [find_crtc] returns 0, [crtcIdx] is the position of the
    chosen CRTC in the CRTC list of the display: it lies within the list,
    the entry there is [crtcId], and no earlier entry is; and the chosen
    connector exists and has at least one mode. *)
Theorem find_crtc_indexes_the_crtc (wd : world) (s s' : setup) :
  result_of (find_crtc wd s) = inl (0, s') ->
  exists res c,
    w_resources wd = Some res
    /\ 0 <= crtcIdx s' < Z.of_nat (List.length (crtcs res))
    /\ nth_error (crtcs res) (Z.to_nat (crtcIdx s')) = Some (crtcId s')
    /\ (forall j, (j < Z.to_nat (crtcIdx s'))%nat ->
                  nth_error (crtcs res) j <> Some (crtcId s'))
    /\ w_connector wd (u32 (conId s')) = Some c
    /\ count_modes c <> 0.
Proof.
  intros H; apply find_crtc_inversion in H.
  destruct H as [[H _] | [res [s1 [Hres [_ [_ H]]]]]]; [discriminate H |].
  cbv zeta in H.
  destruct H as [[H _] | [_ [Hidx [_ [c [Hc [Hm Hs']]]]]]]; [discriminate H |].
  exists res, c.
  assert (crtcIdx s' = crtc_index (crtcs res) (crtcId s1) 0
          /\ crtcId s' = crtcId s1 /\ conId s' = conId s1) as [Ei [Ec En]].
  { destruct Hs' as [[_ ->] | [_ [crtc [_ ->]]]]; repeat split. }
  cbn [crtcIdx set_crtcIdx] in Hidx.
  destruct (crtc_index_found (crtcs res) (crtcId s1) 0 ltac:(lia) Hidx)
    as [Hr [Hnth Hfirst]].
  rewrite Z.sub_0_r in Hnth, Hfirst.
  rewrite Ei, Ec, En.
  repeat split; try assumption; lia.
Qed.

Lemma find_crtc_indexes_the_crtc_witness :
  exists res c,
    w_resources pingpong_world = Some res
    /\ 0 <= crtcIdx (set_compose
                       {| rect_left := 0; rect_top := 0; rect_width := 1920;
                          rect_height := 1080 |}
                       (set_crtcIdx 0 (set_conId 60 demo_setup)))
       < Z.of_nat (List.length (crtcs res))
    /\ nth_error (crtcs res) 0 = Some 50
    /\ (forall j, (j < 0)%nat -> nth_error (crtcs res) j <> Some 50)
    /\ w_connector pingpong_world 60 = Some c
    /\ count_modes c <> 0.
Proof.
  apply (find_crtc_indexes_the_crtc pingpong_world demo_setup
           (set_compose
              {| rect_left := 0; rect_top := 0; rect_width := 1920;
                 rect_height := 1080 |}
              (set_crtcIdx 0 (set_conId 60 demo_setup)))).
  reflexivity.
Defined.

Lemma choose_connector_sets wd ids :
  forall s s1,
    result_of (choose_connector wd ids s) = inl s1 ->
    exists y x, s1 = set_crtcId x (set_conId y s).
Proof.
  induction ids as [| id ids IH]; intros s s1 H; cbn [choose_connector] in H.
  - apply ret_returns in H; subst s1.
    exists (conId s), (crtcId s); now destruct s.
  - apply bind_returns in H; destruct H as [[] [_ H]].
    destruct (w_connector wd id) as [con |]; [| discriminate H].
    apply bind_returns in H; destruct H as [crtc [_ H]].
    cbv zeta in H; apply IH in H; destruct H as [y [x ->]].
    destruct crtc as [c |]; [destruct (conId s =? 0) |];
      eexists; eexists; reflexivity.
Qed.

(** X7.  When [find_crtc] returns 0, the destination rectangle is the one
    of the command line if [-t] gave one, and otherwise the rectangle of
    the chosen CRTC as the display reports it; the sizes, the layouts, the
    buffer count and the plane are as they were. *)
Theorem find_crtc_settles_compose (wd : world) (s s' : setup) :
  result_of (find_crtc wd s) = inl (0, s') ->
  (if use_compose s then compose s' = compose s
   else exists crtc,
          w_crtc wd (crtcId s') = Some crtc /\ compose s' = crtc_rect crtc)
  /\ use_compose s' = use_compose s
  /\ (w s', h s', in_fourcc s', out_fourcc s', buffer_count s', planeId s')
     = (w s, h s, in_fourcc s, out_fourcc s, buffer_count s, planeId s).
Proof.
  intros H; apply find_crtc_inversion in H.
  destruct H as [[H _] | [res [s1 [_ [_ [Hset H]]]]]]; [discriminate H |].
  cbv zeta in H.
  destruct H as [[H _] | [_ [_ [_ [c [_ [_ Hs']]]]]]]; [discriminate H |].
  assert (exists y x, s1 = set_crtcId x (set_conId y s)) as [y [x ->]].
  { destruct Hset as [[_ ->] | [_ [Hc _]]].
    - exists (conId s), (crtcId s); now destruct s.
    - now apply choose_connector_sets in Hc. }
  cbn [use_compose set_crtcIdx set_crtcId set_conId] in Hs'.
  destruct Hs' as [[Hu ->] | [Hu [crtc [Hcrtc ->]]]]; rewrite Hu.
  - repeat split; exact Hu.
  - split; [| split; [exact Hu | reflexivity]].
    exists crtc; split; [exact Hcrtc | reflexivity].
Qed.

Lemma find_crtc_settles_compose_witness :
  (exists crtc,
     w_crtc pingpong_world 50 = Some crtc
     /\ {| rect_left := 0; rect_top := 0; rect_width := 1920;
           rect_height := 1080 |} = crtc_rect crtc)
  /\ false = false
  /\ (640, 480, YUYV, YUYV, 2, 0) = (640, 480, YUYV, YUYV, 2, 0).
Proof.
  apply (find_crtc_settles_compose pingpong_world demo_setup
           (set_compose
              {| rect_left := 0; rect_top := 0; rect_width := 1920;
                 rect_height := 1080 |}
              (set_crtcIdx 0 (set_conId 60 demo_setup)))).
  reflexivity.
Defined.

Lemma choose_connector_first wd ids :
  forall s,
    connectors_fetched wd ids ->
    (forall id con, In id ids -> w_connector wd id = Some con ->
                    s32 (connector_id con) <> 0) ->
    result_of (choose_connector wd ids s)
    = inl (if conId s =? 0
           then match first_connector wd ids with
                | Some (con, crtc) =>
                    set_crtcId (crtc_id crtc)
                      (set_conId (s32 (connector_id con)) s)
                | None => s
                end
           else s).
Proof.
  induction ids as [| id ids IH]; intros s Hfetched Hnz;
    cbn [choose_connector first_connector].
  - now destruct (conId s =? 0).
  - assert (connectors_fetched wd ids) as Hfetched'.
    { intros j Hj; apply Hfetched; now right. }
    assert (forall j con, In j ids -> w_connector wd j = Some con ->
                          s32 (connector_id con) <> 0) as Hnz'.
    { intros j con Hj; apply Hnz; now right. }
    destruct (Hfetched id (or_introl eq_refl)) as [con [Hcon Henc]].
    specialize (Hnz id con (or_introl eq_refl) Hcon).
    bind_ok.
    unfold connector_crtc; rewrite Hcon.
    destruct (Z.eqb_spec (encoder_id con) 0) as [E | E].
    { bind_ok; cbv zeta beta iota.
      apply (IH s Hfetched' Hnz'). }
    destruct (Henc E) as [enc Henc']; rewrite Henc'.
    destruct (Z.eqb_spec (enc_crtc_id enc) 0) as [E' | E'].
    { bind_ok; cbv zeta beta iota.
      apply (IH s Hfetched' Hnz'). }
    bind_ok.
    cbv zeta beta.
    destruct (w_crtc wd (enc_crtc_id enc)) as [crtc |];
      [| apply (IH s Hfetched' Hnz')].
    destruct (Z.eqb_spec (conId s) 0) as [E0 | E0].
    + rewrite (IH _ Hfetched' Hnz').
      cbn [conId set_crtcId set_conId].
      destruct (Z.eqb_spec (s32 (connector_id con)) 0); [contradiction |].
      reflexivity.
    + rewrite (IH s Hfetched' Hnz').
      destruct (Z.eqb_spec (conId s) 0); [contradiction | reflexivity].
Qed.

(** X8.  With no connector on the command line, every connector and
    encoder of the display being fetched and the connector ids non-zero,
    [find_crtc] goes on with the first connector of the list that has an
    encoder with a CRTC, and with that CRTC; when the list has no such
    connector the process exits with status 1. *)
Theorem default_connector_is_first_active (wd : world) (s : setup)
    (res : drmModeRes) :
  conId s = 0 ->
  w_resources wd = Some res ->
  crtcs res <> [] ->
  connectors_fetched wd (connectors res) ->
  (forall id con, In id (connectors res) -> w_connector wd id = Some con ->
                  s32 (connector_id con) <> 0) ->
  match first_connector wd (connectors res) with
  | Some (con, crtc) =>
      forall r s',
        result_of (find_crtc wd s) = inl (r, s') ->
        conId s' = s32 (connector_id con) /\ crtcId s' = crtc_id crtc
  | None => result_of (find_crtc wd s) = inr (Exited 1)
  end.
Proof.
  intros Hcon Hres Hcrtcs Hfetched Hnz.
  pose proof (choose_connector_first wd (connectors res) s Hfetched Hnz)
    as Hchoose.
  rewrite Hcon in Hchoose; cbn [Z.eqb] in Hchoose.
  destruct (first_connector wd (connectors res)) as [[con crtc] |].
  - intros r s' H; apply find_crtc_inversion in H.
    destruct H as [[_ [_ [H | [res' [H H']]]]] | [res' [s1 [Hres' [_ [Hset H]]]]]].
    { congruence. }
    { rewrite Hres in H; injection H as <-; contradiction. }
    rewrite Hres in Hres'; injection Hres' as <-.
    destruct Hset as [[Hne _] | [_ [Hc _]]]; [contradiction |].
    rewrite Hchoose in Hc; injection Hc as <-.
    cbv zeta in H.
    destruct H as [[_ ->] | [_ [_ [_ [c [_ [_ [[_ ->] | [_ [k [_ ->]]]]]]]]]]];
      split; reflexivity.
  - unfold find_crtc.
    bind_ok; rewrite Hres.
    destruct (Z.leb_spec (Z.of_nat (List.length (crtcs res))) 0) as [Hc | Hc].
    { destruct (crtcs res); [contradiction | simpl in Hc; lia]. }
    apply Z.eqb_eq in Hcon; rewrite Hcon.
    erewrite bind_inr; [reflexivity |].
    rewrite (result_of_bind _ _ s Hchoose), Hcon; reflexivity.
Qed.

Lemma default_connector_is_first_active_witness :
  conId (set_compose
           {| rect_left := 0; rect_top := 0; rect_width := 1920;
              rect_height := 1080 |}
           (set_crtcIdx 0 (set_conId 60 demo_setup))) = s32 60
  /\ crtcId (set_compose
               {| rect_left := 0; rect_top := 0; rect_width := 1920;
                  rect_height := 1080 |}
               (set_crtcIdx 0 (set_conId 60 demo_setup))) = 50.
Proof.
  refine (default_connector_is_first_active pingpong_world demo_setup
            {| crtcs := [50]; connectors := [60] |} _ _ _ _ _ 0
            (set_compose
               {| rect_left := 0; rect_top := 0; rect_width := 1920;
                  rect_height := 1080 |}
               (set_crtcIdx 0 (set_conId 60 demo_setup))) _).
  - reflexivity.
  - reflexivity.
  - discriminate.
  - intros id [<- | []]; eexists; split; [reflexivity |].
    intros _; eexists; reflexivity.
  - intros id con [<- | []] H; injection H as <-; discriminate.
  - reflexivity.
Defined.

(** ** A plane that cannot be fetched *)

Lemma scan_planes_follows_null wd s id post :
  0 <= crtcIdx s < 32 ->
  w_plane wd id = None ->
  forall pre,
    (forall j, In j pre ->
       exists p, w_plane wd j = Some p /\ compatible s p = false) ->
    result_of (scan_planes wd (pre ++ id :: post) s) = inr Fault.
Proof.
  intros Hidx Hnull; induction pre as [| j pre IH]; intros Hpre;
    cbn [app scan_planes]; bind_ok.
  - now rewrite Hnull.
  - destruct (Hpre j (or_introl eq_refl)) as [p [Hp Hc]]; rewrite Hp.
    pose proof (plane_skipped_iff s p Hidx) as Hskip.
    rewrite Hc in Hskip; cbn [negb] in Hskip.
    assert (result_of (scan_planes wd (pre ++ id :: post) s) = inr Fault)
      as Hrest by (apply IH; intros k Hk; apply Hpre; now right).
    destruct (Z.land _ _ =? 0); [exact Hrest |].
    rewrite Hskip; exact Hrest.
Qed.

(** X9.  The test after [drmModeGetPlane] looks at the plane list, not at
    the plane: when the scan comes to a plane that cannot be fetched, no
    earlier plane having been taken, [find_plane] does not return -1 but
    follows the NULL pointer. *)
Theorem find_plane_follows_null_plane (wd : world) (s : setup)
    (pre post : list Z) (id : Z) :
  0 <= crtcIdx s < 32 ->
  w_plane_resources wd = Some (pre ++ id :: post) ->
  (forall j, In j pre ->
     exists p, w_plane wd j = Some p /\ compatible s p = false) ->
  w_plane wd id = None ->
  result_of (find_plane wd s) = inr Fault.
Proof.
  intros Hidx Hres Hpre Hnull; unfold find_plane.
  bind_ok; rewrite Hres.
  erewrite bind_inr; [reflexivity |].
  now apply scan_planes_follows_null.
Qed.

Lemma find_plane_follows_null_plane_witness :
  result_of (find_plane (demo_world create_ok [80; 99; 81] []) demo_setup)
  = inr Fault.
Proof.
  apply (find_plane_follows_null_plane
           (demo_world create_ok [80; 99; 81] []) demo_setup [80] [81] 99).
  - vm_compute; split; [intro H; discriminate H | reflexivity].
  - reflexivity.
  - intros j [<- | []]; eexists; split; reflexivity.
  - reflexivity.
Defined.

(** ** What one [buffer_create] leaves *)

(** X10.  A [buffer_create] that returns 0 leaves exactly the allocation,
    the descriptor and the framebuffer of the buffer it filled.  One that
    returns -1 leaves no descriptor and no framebuffer, and no allocation
    either unless [DRM_IOCTL_MODE_DESTROY_DUMB] itself failed, which is
    only warned about. *)
Theorem buffer_create_leaves (rep : create_reply) (s : setup)
    (size pitch : Z) :
  let t := fst (buffer_create rep s size pitch) in
  match snd (buffer_create rep s size pitch) with
  | Some b => live_after t = ([bo_handle b], [dbuf_fd b], [fb_handle b])
  | None =>
      open_handles t = [] /\ registered t = []
      /\ live_allocations t
         = match cr_dumb rep with
           | Some handle => if cr_destroy rep then [] else [handle]
           | None => []
           end
  end.
Proof.
  unfold buffer_create, live_allocations, open_handles, registered,
    live_after.
  destruct (cr_dumb rep) as [handle |]; [| repeat split].
  destruct (cr_prime rep) as [fd |].
  - destruct (cr_addfb rep) as [fb |]; [reflexivity |].
    destruct (cr_destroy rep); cbn; unfold remove_id; cbn;
      rewrite ?Z.eqb_refl; repeat split.
  - destruct (cr_destroy rep); cbn; unfold remove_id; cbn;
      rewrite ?Z.eqb_refl; repeat split.
Qed.

(** ** Before streaming *)

Lemma queue_events_cons b bs from :
  queue_events (b :: bs) from
  = EV_QBUF (Z.of_nat from) (dbuf_fd b) true :: queue_events bs (S from).
Proof. reflexivity. Qed.

(** X11.  When the loop that precedes [VIDIOC_STREAMON] comes to its end,
    it has queued every buffer of the pool exactly once, in the order of
    the pool, each under its own index and with its own descriptor, and
    has made no other call. *)
Theorem queue_all_queues_each_once (wd : world) (bs : list buffer) :
  forall from,
    result_of (queue_all wd bs from) = inl tt ->
    trace_of (queue_all wd bs from) = queue_events bs from
    /\ requeued (trace_of (queue_all wd bs from))
       = map Z.of_nat (seq from (List.length bs)).
Proof.
  induction bs as [| b bs IH]; intros from; cbn [queue_all].
  - intros _; split; reflexivity.
  - rewrite bind_call, trace_of_pair, result_of_pair.
    destruct (w_qbuf_init wd from); cbn [negb].
    + rewrite bind_BYE_ON_false; intros H.
      destruct (IH (S from) H) as [Ht Hq].
      rewrite Ht, queue_events_cons; split; [reflexivity |].
      cbn [requeued List.length seq map]; rewrite <- Ht, Hq; reflexivity.
    + intros H; discriminate H.
Qed.

Lemma queue_all_queues_each_once_witness :
  trace_of (queue_all pingpong_world demo_pool 0) = queue_events demo_pool 0
  /\ requeued (trace_of (queue_all pingpong_world demo_pool 0))
     = map Z.of_nat (seq 0 (List.length demo_pool)).
Proof.
  apply (queue_all_queues_each_once pingpong_world demo_pool 0).
  reflexivity.
Defined.

(** ** The calls of the loop *)

Lemma buffer_at_bounds bs i b :
  buffer_at bs i = Some b ->
  0 <= i < Z.of_nat (List.length bs) /\ In b bs.
Proof.
  unfold buffer_at; destruct (Z.ltb_spec i 0) as [| Hi]; [discriminate |].
  intros H; split; [| now apply nth_error_In in H].
  assert (nth_error bs (Z.to_nat i) <> None) as Hn by congruence.
  apply nth_error_Some in Hn; lia.
Qed.

Lemma loop_body_keeps_pool s st k st' :
  result_of (loop_body s st k) = inl st' ->
  stream_buffer st' = stream_buffer st.
Proof.
  intros H; unfold loop_body in H.
  apply bind_returns in H; destruct H as [[] [_ H]].
  destruct (dqbuf_reply k) as [index |]; [| discriminate H].
  destruct (buffer_at (stream_buffer st) index) as [b |]; [| discriminate H].
  apply bind_returns in H; destruct H as [[] [_ H]].
  apply bind_returns in H; destruct H as [[] [_ H]].
  apply bind_returns in H; destruct H as [index' [_ H]].
  now injection H as <-.
Qed.

Lemma loop_body_presents s st k e :
  In e (trace_of (loop_body s st k)) -> is_present_of s e.
Proof.
  unfold loop_body, bind, BYE_ON, call, ret, stop, trace_of.
  destruct (dqbuf_reply k) as [index |]; simpl.
  2: { intros [<- | []]; exact I. }
  destruct (buffer_at (stream_buffer st) index) as [b |]; simpl.
  2: { intros [<- | []]; exact I. }
  assert (is_present_of s
            (EV_SetPlane (planeId s) (crtcId s) (fb_handle b)
               (rect_left (compose s)) (rect_top (compose s))
               (rect_width (compose s)) (rect_height (compose s)) 0 0
               (u32 (Z.shiftl (w s) 16)) (u32 (Z.shiftl (h s) 16))
               (setplane_reply k))) as Hshow.
  { cbn [is_present_of]; repeat split. }
  destruct (setplane_reply k); simpl.
  2: { intros [<- | [<- | []]]; [exact I | exact Hshow]. }
  destruct (current_buffer st =? -1); simpl.
  { intros [<- | [<- | []]]; [exact I | exact Hshow]. }
  destruct (buffer_at (stream_buffer st) (current_buffer st)); simpl;
    [destruct (qbuf_reply k); simpl |];
    intros Hin;
    repeat (destruct Hin as [<- | Hin]; [exact I || exact Hshow |]);
    contradiction.
Qed.

Lemma loop_body_shows_dequeued s st k last i fb b :
  In (i, fb) (shown_for last (trace_of (loop_body s st k))) ->
  buffer_at (stream_buffer st) i = Some b ->
  fb = fb_handle b.
Proof.
  unfold loop_body, bind, BYE_ON, call, ret, stop, trace_of.
  destruct (dqbuf_reply k) as [index |]; simpl; [| intros []].
  destruct (buffer_at (stream_buffer st) index) as [b0 |] eqn:Hb0; simpl;
    [| intros []].
  destruct (setplane_reply k); simpl;
    [destruct (current_buffer st =? -1); simpl;
     [| destruct (buffer_at (stream_buffer st) (current_buffer st)); simpl;
        [destruct (qbuf_reply k); simpl |]] |];
    intros [H | []] Hi; injection H as <- <-; congruence.
Qed.

Lemma shown_for_app_in p t1 :
  forall last t2,
    In p (shown_for last (t1 ++ t2)) ->
    In p (shown_for last t1) \/ exists last', In p (shown_for last' t2).
Proof.
  induction t1 as [| e t1 IH]; intros last t2 H.
  - right; now exists last.
  - destruct e as [| | | | | | | | | | | | | | | | | | | | [index |] |];
      cbn [app shown_for] in *; try (now apply IH).
    destruct last as [index |]; [| now apply IH].
    destruct H as [H | H]; [left; now left |].
    destruct (IH _ _ H) as [H' | H']; [left; now right | now right].
Qed.

Lemma handoff_shows_dequeued s wakes i fb b :
  forall st last,
    In (i, fb) (shown_for last (trace_of (handoff s st wakes))) ->
    buffer_at (stream_buffer st) i = Some b ->
    fb = fb_handle b.
Proof.
  induction wakes as [| k wakes IH]; intros st last; cbn [handoff];
    rewrite bind_call, trace_of_pair; cbn [shown_for].
  - intros [].
  - destruct (poll_ret k >? 0); [| intros []].
    destruct (bind_cases (loop_body s st k) (fun st' => handoff s st' wakes))
      as [[st' [Hb E]] | [o [Hb E]]]; rewrite E, trace_of_pair; clear E.
    + intros Hin Hi; apply shown_for_app_in in Hin.
      destruct Hin as [Hin | [last' Hin]].
      * exact (loop_body_shows_dequeued s st k last i fb b Hin Hi).
      * rewrite <- (loop_body_keeps_pool s st k st' Hb) in Hi.
        exact (IH st' last' Hin Hi).
    + intros Hin Hi.
      exact (loop_body_shows_dequeued s st k last i fb b Hin Hi).
Qed.

Lemma handoff_presents s wakes e :
  forall st, In e (trace_of (handoff s st wakes)) -> is_present_of s e.
Proof.
  induction wakes as [| k wakes IH]; intros st; cbn [handoff];
    rewrite bind_call, trace_of_pair.
  - intros [<- | []]; exact I.
  - destruct (poll_ret k >? 0).
    2: { intros [<- | []]; exact I. }
    destruct (bind_cases (loop_body s st k) (fun st' => handoff s st' wakes))
      as [[st' [Hb E]] | [o [Hb E]]]; rewrite E, trace_of_pair; clear E.
    + intros [<- | Hin]; [exact I |].
      apply in_app_or in Hin; destruct Hin as [Hin | Hin].
      * now apply (loop_body_presents s st k).
      * now apply (IH st').
    + intros [<- | Hin]; [exact I |].
      now apply (loop_body_presents s st k).
Qed.

(** X12.  Every present call of the streaming loop goes to the resolved
    plane and CRTC, places the frame in the compose rectangle and takes as
    its source the whole frame from the origin, width and height shifted
    left by 16 bits; and whenever the index that the dequeue before it
    gave lies in the pool, the framebuffer it shows is the one of the
    buffer at that index. *)
Theorem loop_presents_pool_buffers (s : setup) (st : stream)
    (wakes : list wake) :
  (forall e, In e (trace_of (handoff s st wakes)) -> is_present_of s e)
  /\ (forall i fb b,
        In (i, fb) (shown_for None (trace_of (handoff s st wakes))) ->
        buffer_at (stream_buffer st) i = Some b ->
        fb = fb_handle b).
Proof.
  split.
  - intros e; apply handoff_presents.
  - intros i fb b; apply handoff_shows_dequeued.
Qed.

Lemma loop_presents_pool_buffers_witness :
  is_present_of demo_setup
    (EV_SetPlane 0 50 101 0 0 0 0 0 0 41943040 31457280 true)
  /\ 101 = fb_handle {| bo_handle := 2; fb_handle := 101; dbuf_fd := 11 |}.
Proof.
  split.
  - apply (proj1 (loop_presents_pool_buffers demo_setup (stream_recording 0)
                    [frame 1])
             (EV_SetPlane 0 50 101 0 0 0 0 0 0 41943040 31457280 true)).
    vm_compute; right; right; left; reflexivity.
  - apply (proj2 (loop_presents_pool_buffers demo_setup (stream_recording 0)
                    [frame 1]) 1 101
             {| bo_handle := 2; fb_handle := 101; dbuf_fd := 11 |}).
    + vm_compute; left; reflexivity.
    + reflexivity.
Defined.

Lemma dequeued_app t1 t2 : dequeued (t1 ++ t2) = dequeued t1 ++ dequeued t2.
Proof.
  induction t1 as [| e t1 IH]; [reflexivity |].
  destruct e as [| | | | | | | | | | | | | | | | | | | | [i |] |];
    simpl; rewrite ?IH; reflexivity.
Qed.

Lemma first_turn s st k :
  current_buffer st = -1 ->
  Z.of_nat (List.length (stream_buffer st)) < 2 ^ 31 ->
  requeued (trace_of (loop_body s st k)) = []
  /\ forall st',
       result_of (loop_body s st k) = inl st' ->
       exists index,
         dequeued (trace_of (loop_body s st k)) = [index]
         /\ current_buffer st' = index
         /\ 0 <= index < 2 ^ 31.
Proof.
  intros Hcur Hlen.
  unfold loop_body, bind, BYE_ON, call, ret, stop, trace_of, result_of.
  destruct (dqbuf_reply k) as [index |]; simpl;
    [| split; [reflexivity | intros st' H; discriminate H]].
  destruct (buffer_at (stream_buffer st) index) as [b |] eqn:Hb; simpl;
    [| split; [reflexivity | intros st' H; discriminate H]].
  apply buffer_at_bounds in Hb; destruct Hb as [Hb _].
  destruct (setplane_reply k); simpl;
    [| split; [reflexivity | intros st' H; discriminate H]].
  rewrite Hcur; simpl; split; [reflexivity |].
  intros st' H; injection H as <-; exists index.
  cbn [current_buffer set_current_buffer].
  split; [reflexivity |]. split; [| lia].
  rewrite <- (s32_u32 index) at 2 by lia.
  unfold u32; rewrite Z.mod_small; [reflexivity |].
  change (2 ^ 32) with 4294967296; change (2 ^ 31) with 2147483648 in *.
  lia.
Qed.

(** X13.  Starting with nothing recorded and a pool of fewer than 2^31
    buffers, whatever the producer hands out, every buffer that the
    streaming loop gives back to the producer is the buffer of the first
    frame it dequeued. *)
Theorem loop_requeues_first_frame (s : setup) (st : stream)
    (wakes : list wake) (i : Z) :
  current_buffer st = -1 ->
  Z.of_nat (List.length (stream_buffer st)) < 2 ^ 31 ->
  In i (requeued (trace_of (handoff s st wakes))) ->
  hd_error (dequeued (trace_of (handoff s st wakes))) = Some i.
Proof.
  intros Hcur Hlen.
  destruct wakes as [| k wakes]; cbn [handoff];
    rewrite bind_call, trace_of_pair; cbn [requeued dequeued].
  { intros []. }
  destruct (poll_ret k >? 0); [| intros []].
  destruct (first_turn s st k Hcur Hlen) as [Hnone Hfirst].
  destruct (bind_cases (loop_body s st k) (fun st' => handoff s st' wakes))
    as [[st' [Hb E]] | [o [Hb E]]]; rewrite E, trace_of_pair; clear E.
  2: { rewrite Hnone; intros []. }
  destruct (Hfirst st' Hb) as [index [Hdq [Hrec Hrange]]].
  rewrite requeued_app, dequeued_app, Hnone, Hdq; cbn [app hd_error].
  intros Hin.
  assert (current_buffer st' <> -1) as Hne by lia.
  assert (- 2 ^ 31 <= current_buffer st' < 2 ^ 31) as Hr.
  { change (2 ^ 31) with 2147483648 in *; lia. }
  pose proof (handoff_requeues_recorded s wakes st' Hne Hr) as Hall.
  rewrite Forall_forall in Hall; rewrite (Hall i Hin), Hrec.
  unfold u32; rewrite Z.mod_small; [reflexivity |].
  change (2 ^ 32) with 4294967296; change (2 ^ 31) with 2147483648 in *.
  lia.
Qed.

Lemma loop_requeues_first_frame_witness :
  hd_error
    (dequeued
       (trace_of
          (handoff demo_setup (stream_recording (-1))
             [frame 1; frame 0; frame 1])))
  = Some 1.
Proof.
  apply (loop_requeues_first_frame demo_setup (stream_recording (-1))
           [frame 1; frame 0; frame 1] 1).
  - reflexivity.
  - reflexivity.
  - vm_compute; left; reflexivity.
Defined.

(** ** The end of a session *)

Lemma handoff_returns s wakes :
  forall st st',
    result_of (handoff s st wakes) = inl st' ->
    exists before r,
      trace_of (handoff s st wakes) = before ++ [EV_poll r] /\ r <= 0.
Proof.
  induction wakes as [| k wakes IH]; intros st st'; cbn [handoff];
    rewrite bind_call, trace_of_pair, result_of_pair.
  - intros _; exists [], 0; split; [reflexivity | lia].
  - destruct (Z.gtb_spec (poll_ret k) 0) as [Hp | Hp].
    2: { intros _; exists [], (poll_ret k); split; [reflexivity | lia]. }
    destruct (bind_cases (loop_body s st k) (fun st1 => handoff s st1 wakes))
      as [[st1 [Hb E]] | [o [Hb E]]];
      rewrite E, trace_of_pair, result_of_pair; clear E.
    + intros H; destruct (IH st1 st' H) as [before [r [Ht Hr]]].
      exists (EV_poll (poll_ret k) :: trace_of (loop_body s st k) ++ before), r.
      rewrite Ht; split; [| exact Hr].
      simpl; now rewrite app_assoc.
    + intros H; discriminate H.
Qed.

Lemma run_stream_returns wd s bs st :
  result_of (run_stream wd s bs) = inl st ->
  exists before r,
    trace_of (run_stream wd s bs) = before ++ [EV_poll r] /\ r <= 0.
Proof.
  unfold run_stream.
  destruct (bind_cases (queue_all wd bs 0)
              (fun _ => call (EV_STREAMON (w_streamon wd)) ;;;
                        BYE_ON (negb (w_streamon wd)) BYE_STREAMON ;;;
                        handoff s
                          {| v4lfd := w_open wd; current_buffer := -1;
                             stream_buffer := bs |} (w_wakes wd)))
    as [[[] [_ E]] | [o [_ E]]];
    rewrite E, trace_of_pair, result_of_pair; clear E.
  2: { intros H; discriminate H. }
  rewrite bind_call, trace_of_pair, result_of_pair.
  destruct (w_streamon wd); cbn [negb].
  - rewrite bind_BYE_ON_false; intros H.
    destruct (handoff_returns s (w_wakes wd) _ st H) as [before [r [Ht Hr]]].
    exists (trace_of (queue_all wd bs 0) ++ EV_STREAMON true :: before), r.
    rewrite Ht, <- app_assoc; split; [reflexivity | exact Hr].
  - intros H; discriminate H.
Qed.

(** X14.  When [main] comes to its [return 0], the last call of the run
    is a [poll] that returned 0 or less: a timeout and an error of [poll]
    end the session alike, with status 0.  By then the run has made its
    [buffer_count] allocations and has given nothing back. *)
Theorem main_returns_after_quiet_poll (opts : list (ascii * string))
    (wd : world) (st : stream) :
  result_of (main_steps opts wd) = inl st ->
  snd (main opts wd) = Returned 0
  /\ (exists before r, fst (main opts wd) = before ++ [EV_poll r] /\ r <= 0)
  /\ releases (fst (main opts wd)) = []
  /\ allocations (fst (main opts wd))
     = Z.to_nat (buffer_count (snd (parse_args opts))).
Proof.
  intros H; unfold main; cbn [fst snd]; rewrite H.
  split; [reflexivity |].
  destruct (negotiate_quiet opts wd) as [Hqn _].
  destruct (main_steps_cases opts wd)
    as [[o [_ E]] | [s [size [pitch [Hn [[o [_ E]] | [bs [Hp C]]]]]]]];
    try (rewrite E, result_of_pair in H; discriminate H).
  destruct C as [[o [_ E]] | [s' [Hr E]]];
    [rewrite E, result_of_pair in H; discriminate H |].
  rewrite E, result_of_pair in H; rewrite E, !trace_of_pair.
  destruct (resolve_quiet wd s) as [Hqr _].
  destruct (run_stream_quiet wd s' bs) as [Hqs _].
  destruct (create_buffers_done wd s size pitch _ _ _ Hp)
    as [_ [Hrel Hall]]; fold (create_pool wd s size pitch) in Hrel, Hall.
  destruct (negotiate_buffer_count opts wd s size pitch Hn) as [Hcount _].
  destruct (run_stream_returns wd s' bs st H) as [before [r [Ht Hle]]].
  split.
  { exists (trace_of (negotiate opts wd)
            ++ trace_of (create_pool wd s size pitch)
            ++ trace_of (resolve wd s) ++ before), r.
    rewrite Ht, <- !app_assoc; split; [reflexivity | exact Hle]. }
  split.
  - rewrite !releases_app, Hrel.
    rewrite (quiet_releases _ (calm_is_quiet _ Hqn)).
    rewrite (quiet_releases _ (calm_is_quiet _ Hqr)).
    rewrite (quiet_releases _ Hqs); reflexivity.
  - rewrite !allocations_app, Hall.
    rewrite (quiet_allocations _ (calm_is_quiet _ Hqn)).
    rewrite (quiet_allocations _ (calm_is_quiet _ Hqr)).
    rewrite (quiet_allocations _ Hqs), Hcount; lia.
Qed.

Lemma main_returns_after_quiet_poll_witness :
  snd (main (demo_opts "2") pingpong_world) = Returned 0
  /\ (exists before r,
        fst (main (demo_opts "2") pingpong_world) = before ++ [EV_poll r]
        /\ r <= 0)
  /\ releases (fst (main (demo_opts "2") pingpong_world)) = []
  /\ allocations (fst (main (demo_opts "2") pingpong_world)) = 2%nat.
Proof.
  apply (main_returns_after_quiet_poll (demo_opts "2") pingpong_world
           (stream_recording 0)).
  reflexivity.
Defined.

(** ** What the pool holds *)

Lemma create_buffers_contents wd s size pitch n :
  forall from bs,
    result_of (create_buffers wd s size pitch n from) = inl bs ->
    forall j, (j < n)%nat ->
      exists handle fd fb,
        cr_dumb (w_create wd (from + j)) = Some handle
        /\ cr_prime (w_create wd (from + j)) = Some fd
        /\ cr_addfb (w_create wd (from + j)) = Some fb
        /\ nth_error bs j
           = Some {| bo_handle := handle; fb_handle := fb; dbuf_fd := fd |}.
Proof.
  induction n as [| n IH]; intros from bs H j Hj; [lia |].
  cbn [create_buffers] in H.
  apply bind_returns in H; destruct H as [b [Hb H]].
  apply bind_returns in H; destruct H as [bs' [Hrest H]].
  apply ret_returns in H; subst bs.
  destruct j as [| j].
  - rewrite Nat.add_0_r; unfold buffer_create in Hb.
    destruct (cr_dumb (w_create wd from)) as [handle |]; [| discriminate Hb].
    destruct (cr_prime (w_create wd from)) as [fd |]; [| discriminate Hb].
    destruct (cr_addfb (w_create wd from)) as [fb |]; [| discriminate Hb].
    injection Hb as <-; exists handle, fd, fb; repeat split.
  - replace (from + S j)%nat with (S from + j)%nat by lia.
    apply (IH (S from) bs' Hrest j); lia.
Qed.

(** X17.  A pool that is created whole has [buffer_count] buffers, and
    buffer [j] holds what the kernel gave for the [j]-th creation: the
    handle of its allocation, the descriptor exported for that handle and
    the framebuffer registered on it. *)
Theorem pool_holds_what_was_created (wd : world) (s : setup)
    (size pitch : Z) (bs : list buffer) (j : nat) :
  result_of (create_pool wd s size pitch) = inl bs ->
  (j < Z.to_nat (buffer_count s))%nat ->
  List.length bs = Z.to_nat (buffer_count s)
  /\ exists handle fd fb,
       cr_dumb (w_create wd j) = Some handle
       /\ cr_prime (w_create wd j) = Some fd
       /\ cr_addfb (w_create wd j) = Some fb
       /\ nth_error bs j
          = Some {| bo_handle := handle; fb_handle := fb; dbuf_fd := fd |}.
Proof.
  unfold create_pool; intros H Hj; split.
  - now destruct (create_buffers_done wd s size pitch _ _ _ H).
  - apply (create_buffers_contents wd s size pitch _ 0%nat bs H j Hj).
Qed.

Lemma pool_holds_what_was_created_witness :
  List.length demo_pool = Z.to_nat (buffer_count demo_setup)
  /\ exists handle fd fb,
       cr_dumb (w_create pingpong_world 1) = Some handle
       /\ cr_prime (w_create pingpong_world 1) = Some fd
       /\ cr_addfb (w_create pingpong_world 1) = Some fb
       /\ nth_error demo_pool 1
          = Some {| bo_handle := handle; fb_handle := fb; dbuf_fd := fd |}.
Proof.
  apply (pool_holds_what_was_created pingpong_world demo_setup 614400 1280
           demo_pool 1).
  - reflexivity.
  - vm_compute; lia.
Defined.
